(** * hn_into_llm: favourite-thread links and thread-to-markdown rendering

    A shallow embedding of [src/main.py].  The program walks the paginated
    listing of a user's favourite Hacker News threads
    ([retrieve_user_favorite_links], built on [get_item_links_from_page]) and
    turns each thread page into an indented markdown outline
    ([fetch_hn_thread_markdown]).

    Conventions of the embedding:
    - a Python [str] is a [string]; a character is a code point below 256:
      pages, URLs and titles with other characters are outside the embedding
      (on the range it covers the regular-expression class [\d], which takes
      every Unicode decimal digit, is exactly [0-9], and [str.isspace] and
      [str.splitlines] are as defined below);
    - a Python [int] is a [Z], [//] is [Z.div] (both round towards minus
      infinity for the positive divisor used here);
    - a parsed page is a tree of [element]s, as BeautifulSoup builds it with
      tags and text nodes; the BeautifulSoup calls the program makes are
      modelled on that tree; [decompose] changes the tree in place, so the
      rows found before the loop are kept by their paths and each is read as
      the tags decomposed before its turn have left it;
    - the network is a function from URLs to responses, and every request is
      recorded in a trace of [event]s, together with the temporary file the
      walker writes; log lines are not modelled;
    - an exception is a [Raise] result; the [while] loop of the walker takes
      fuel, one unit per listing page;
    - the machine ([sys.maxsize], the memory for a string) and the file
      system (what opening and writing a file raise) are variables of the
      program. *)

From Stdlib Require Import String Ascii List ZArith Bool Lia Permutation DecimalString.
Import ListNotations.

Local Open Scope string_scope.
Local Open Scope list_scope.

Infix "+++" := String.append (right associativity, at level 60) : string_scope.

(** ** Python string operations used by the program *)

(** Line feed, the ["\n"] of the source. *)
Definition LF : ascii := "010"%char.
Definition CR : ascii := "013"%char.
Definition nl : string := String LF "".

Definition code_in (lo hi : nat) (c : ascii) : bool :=
  (lo <=? nat_of_ascii c)%nat && (nat_of_ascii c <=? hi)%nat.

(** [str.isspace] on one character: the white space [str.strip()] removes. *)
Definition py_isspace (c : ascii) : bool :=
  code_in 9 13 c || code_in 28 32 c || code_in 133 133 c || code_in 160 160 c.

(** The white space [int()] skips around a literal. *)
Definition int_isspace (c : ascii) : bool :=
  code_in 9 13 c || code_in 32 32 c || code_in 133 133 c || code_in 160 160 c.

(** The class [\d] of [re] on the characters of the embedding: of the code
    points below 256 the Unicode decimal digits are [0] to [9]. *)
Definition is_digit (c : ascii) : bool := code_in 48 57 c.

(** The characters at which [str.splitlines] ends a line ([CR] followed by
    [LF] counts once, see [splitlines_from]). *)
Definition is_linebreak (c : ascii) : bool :=
  code_in 10 13 c || code_in 28 30 c || code_in 133 133 c.

Fixpoint lstrip_by (p : ascii -> bool) (s : string) : string :=
  match s with
  | String c r => if p c then lstrip_by p r else s
  | EmptyString => EmptyString
  end.

Fixpoint rstrip_by (p : ascii -> bool) (s : string) : string :=
  match s with
  | EmptyString => EmptyString
  | String c r =>
      match rstrip_by p r with
      | EmptyString => if p c then EmptyString else String c EmptyString
      | r' => String c r'
      end
  end.

(** [s.lstrip(chars)] for a one-character [chars], and [s.strip()]. *)
Definition lstrip (c : ascii) (s : string) : string := lstrip_by (Ascii.eqb c) s.
Definition strip (s : string) : string := lstrip_by py_isspace (rstrip_by py_isspace s).

(** [sep.join(l)]. *)
Definition join (sep : string) (l : list string) : string := String.concat sep l.

Definition snoc (s : string) (c : ascii) : string := s +++ String c "".

(** [s.splitlines()]: [cur] is the line being read. *)
Fixpoint splitlines_from (cur s : string) : list string :=
  match s with
  | EmptyString => match cur with EmptyString => [] | _ => [cur] end
  | String c r =>
      if Ascii.eqb c CR then
        match r with
        | String c' r' =>
            if Ascii.eqb c' LF then cur :: splitlines_from "" r'
            else cur :: splitlines_from "" r
        | EmptyString => [cur]
        end
      else if is_linebreak c then cur :: splitlines_from "" r
      else splitlines_from (snoc cur c) r
  end.

Definition splitlines (s : string) : list string := splitlines_from "" s.

(** [s.split(sep)[-1]] for a one-character [sep]: what follows the last
    [sep], the whole of [s] when there is none. *)
Fixpoint split_last_from (sep : ascii) (cur s : string) : string :=
  match s with
  | EmptyString => cur
  | String c r =>
      if Ascii.eqb c sep then split_last_from sep "" r
      else split_last_from sep (snoc cur c) r
  end.

Definition split_last (sep : ascii) (s : string) : string := split_last_from sep "" s.

(** [s * n] for an [int] [n]: empty when [n] is not positive. *)
Fixpoint repeat_nat (s : string) (n : nat) : string :=
  match n with
  | O => ""
  | S n' => s +++ repeat_nat s n'
  end.

Definition str_mul (s : string) (n : Z) : string := repeat_nat s (Z.to_nat n).

(** [int(s)]: white space around, an optional sign, decimal digits with single
    underscores between them.  [None] stands for the [ValueError]. *)
Definition digit_val (c : ascii) : option Z :=
  if is_digit c then Some (Z.of_nat (nat_of_ascii c) - 48)%Z else None.

Fixpoint parse_digits (acc : Z) (after_digit : bool) (s : string) : option Z :=
  match s with
  | EmptyString => if after_digit then Some acc else None
  | String c r =>
      match digit_val c with
      | Some d => parse_digits (10 * acc + d)%Z true r
      | None =>
          if Ascii.eqb c "_" && after_digit then parse_digits acc false r else None
      end
  end.

(** The literal [int] reads: [s] without the white space around it and
    without its sign. *)
Definition int_literal (s : string) : string :=
  match lstrip_by int_isspace (rstrip_by int_isspace s) with
  | String "+" r => r
  | String "-" r => r
  | t => t
  end.

(** The digits at the head of a literal, single underscores between them
    skipped, as [int] counts them before it converts; [None] when the
    underscores are misplaced, which [int] reports as an invalid literal
    before it looks at the count. *)
Fixpoint scan_digits (after_digit : bool) (n : nat) (s : string) : option nat :=
  match s with
  | String c r =>
      if is_digit c then scan_digits true (S n) r
      else if Ascii.eqb c "_" then (if after_digit then scan_digits false n r else None)
      else if after_digit || (n =? 0)%nat then Some n else None
  | EmptyString => if after_digit || (n =? 0)%nat then Some n else None
  end.

Definition count_digits (s : string) : nat :=
  match scan_digits false 0 (int_literal s) with
  | Some n => n
  | None => 0
  end.

(** The most digits [int] converts ([sys.get_int_max_str_digits()], 4300
    unless changed). *)
Definition MAX_STR_DIGITS : nat := 4300.

Definition within_digit_limit (s : string) : bool :=
  (count_digits s <=? MAX_STR_DIGITS)%nat.

Definition negative_literal (s : string) : bool :=
  match lstrip_by int_isspace (rstrip_by int_isspace s) with
  | String "-" _ => true
  | _ => false
  end.

Definition py_int (s : string) : option Z :=
  if within_digit_limit s then
    option_map (if negative_literal s then Z.opp else fun n => n)
               (parse_digits 0 false (int_literal s))
  else None.

(** [repr(s)]: quotes chosen by the quotes inside, back slash, the chosen
    quote and what does not print escaped. *)
Definition hex_digit (n : nat) : ascii :=
  ascii_of_nat (if (n <? 10)%nat then 48 + n else 87 + n).

Definition escape_char (quote c : ascii) : string :=
  if Ascii.eqb c "\" then "\\"
  else if Ascii.eqb c quote then String "\" (String c "")
  else if Ascii.eqb c LF then "\n"
  else if Ascii.eqb c CR then "\r"
  else if Ascii.eqb c "009" then "\t"
  else if code_in 0 31 c || code_in 127 160 c || code_in 173 173 c then
    "\x" +++ String (hex_digit (nat_of_ascii c / 16))
              (String (hex_digit (nat_of_ascii c mod 16)) "")
  else String c "".

Fixpoint escape_all (quote : ascii) (s : string) : string :=
  match s with
  | EmptyString => ""
  | String c r => escape_char quote c +++ escape_all quote r
  end.

Fixpoint has_char (c : ascii) (s : string) : bool :=
  match s with
  | EmptyString => false
  | String d r => Ascii.eqb d c || has_char c r
  end.

Definition DQUOTE : ascii := ascii_of_nat 34.

Definition py_repr (s : string) : string :=
  let quote : ascii :=
    if has_char "'" s && negb (has_char DQUOTE s) then DQUOTE else "'"%char in
  String quote (escape_all quote s) +++ String quote "".

(** The message of the [ValueError] of [int(s)]; an invalid literal is shown
    by the first 200 characters of its [repr]. *)
Definition int_error_message (s : string) : string :=
  if within_digit_limit s then
    "invalid literal for int() with base 10: " +++ substring 0 200 (py_repr s)
  else "Exceeds the limit (4300 digits) for integer string conversion: value has "
       +++ NilEmpty.string_of_uint (Nat.to_uint (count_digits s))
       +++ " digits; use sys.set_int_max_str_digits() to increase the limit".

(** [s[:n]] on a list, with Python's reading of a negative bound. *)
Definition slice_to {A : Type} (l : list A) (n : Z) : list A :=
  if (n <? 0)%Z then firstn (Z.to_nat (Z.of_nat (length l) + n)) l
  else firstn (Z.to_nat n) l.

(** ** Parsed pages *)

(** What BeautifulSoup makes of a page: text nodes and tags with their
    attribute dictionary and children. *)
#[warnings="-register-all"]
Inductive element : Type :=
| NavigableString (s : string)
| Tag (name : string) (attrs : list (string * string)) (contents : list element).

(** The [BeautifulSoup] object is the root tag of the tree. *)
Definition BeautifulSoup (contents : list element) : element :=
  Tag "[document]" [] contents.

Definition name_of (e : element) : option string :=
  match e with
  | Tag n _ _ => Some n
  | NavigableString _ => None
  end.

Definition attrs_of (e : element) : list (string * string) :=
  match e with
  | Tag _ a _ => a
  | NavigableString _ => []
  end.

(** [tag.attrs.get(key)]. *)
Fixpoint lookup (key : string) (a : list (string * string)) : option string :=
  match a with
  | [] => None
  | (k, v) :: r => if k =? key then Some v else lookup key r
  end.

Definition get_attr (e : element) (key : string) : option string :=
  lookup key (attrs_of e).

(** The descendants of an element in document order, as [tag.descendants]
    yields them. *)
Fixpoint descendants (e : element) : list element :=
  match e with
  | NavigableString _ => []
  | Tag _ _ cs => flat_map (fun c => c :: descendants c) cs
  end.

(** The text nodes below (or at) an element, in document order. *)
Fixpoint all_strings (e : element) : list string :=
  match e with
  | NavigableString s => [s]
  | Tag _ _ cs => flat_map all_strings cs
  end.

(** [tag.get_text(separator)] and [tag.text]. *)
Definition get_text (sep : string) (e : element) : string := join sep (all_strings e).
Definition text (e : element) : string := get_text "" e.

(** [tag.string]: the one text node of a tag whose chain of only children
    ends in a text node. *)
Fixpoint tag_string (e : element) : option string :=
  match e with
  | NavigableString s => Some s
  | Tag _ _ [c] => tag_string c
  | Tag _ _ _ => None
  end.

(** The values of a [class] attribute: BeautifulSoup splits it at white
    space when it parses the page. *)
Fixpoint words_from (cur s : string) : list string :=
  match s with
  | EmptyString => match cur with EmptyString => [] | _ => [cur] end
  | String c r =>
      if py_isspace c then
        match cur with
        | EmptyString => words_from "" r
        | _ => cur :: words_from "" r
        end
      else words_from (snoc cur c) r
  end.

Definition class_list (e : element) : option (list string) :=
  option_map (words_from "") (get_attr e "class").

(** The test behind [class_=...]: one of the tag's classes, or all of them
    joined by single spaces, is one of the wanted strings. *)
Definition has_class (wanted : list string) (e : element) : bool :=
  match class_list e with
  | None => false
  | Some cl =>
      existsb (fun c => existsb (String.eqb c) wanted) cl
      || existsb (String.eqb (join " " cl)) wanted
  end.

Definition has_name (names : list string) (e : element) : bool :=
  match name_of e with
  | Some n => existsb (String.eqb n) names
  | None => false
  end.

(** [tag.find_all(...)] and [tag.find(...)] for a test [p] on tags. *)
Definition find_all (p : element -> bool) (e : element) : list element :=
  filter p (descendants e).

Definition find (p : element -> bool) (e : element) : option element :=
  hd_error (find_all p e).

(** [tag.decompose()] on every descendant that passes [p]: the subtrees are
    gone from the tree. *)
Fixpoint decompose_all (p : element -> bool) (e : element) : element :=
  match e with
  | NavigableString s => NavigableString s
  | Tag n a cs =>
      Tag n a
        ((fix prune (l : list element) : list element :=
            match l with
            | [] => []
            | c :: r => if p c then prune r else decompose_all p c :: prune r
            end) cs)
  end.

(** ** The pattern of item links *)

Fixpoint strip_prefix (p s : string) : option string :=
  match p with
  | EmptyString => Some s
  | String c p' =>
      match s with
      | String d s' => if Ascii.eqb c d then strip_prefix p' s' else None
      | EmptyString => None
      end
  end.

(** [$] without [re.MULTILINE]: at the end of the string, or just before a
    line feed that ends it. *)
Definition at_dollar (s : string) : bool :=
  match s with
  | EmptyString => true
  | String c EmptyString => Ascii.eqb c LF
  | _ => false
  end.

(** [\d+$]: the digits are taken greedily; giving one back never helps, since
    a digit is no end of string. *)
Fixpoint digits_dollar (seen : bool) (s : string) : bool :=
  match s with
  | String c r => if is_digit c then digits_dollar true r else seen && at_dollar s
  | EmptyString => seen
  end.

(** [re.compile(r"^/?item\?id=\d+$").search(h)]: with [^] the search can only
    succeed at the start of [h]; [/?] takes a leading slash when there is one
    (the letter [i] that follows cannot match it). *)
Definition item_pattern (h : string) : bool :=
  let h' :=
    match h with
    | String c r => if Ascii.eqb c "/" then r else h
    | EmptyString => h
    end in
  match strip_prefix "item?id=" h' with
  | Some r => digits_dollar false r
  | None => false
  end.

(** A string of digits, possibly empty. *)
Fixpoint all_digits (s : string) : bool :=
  match s with
  | EmptyString => true
  | String c r => is_digit c && all_digits r
  end.

(** ** Exceptions, effects and the network *)

Inductive exn : Type :=
| ConnectionError
| HTTPError (status : Z)
| ValueError (msg : string)
| KeyError (key : string)
| AttributeError (msg : string)
| TypeError (msg : string)
| OverflowError (msg : string)
| MemoryError
| OSError (errno : Z).

Inductive result (A : Type) : Type :=
| Ok (a : A)
| Raise (e : exn)
| OutOfFuel.

Arguments Ok {A} a.
Arguments Raise {A} e.
Arguments OutOfFuel {A}.

(** What a run does to the outside world, in order: a request, the temporary
    file of the walker (whose path is printed), a document written by
    [main]. *)
Inductive event : Type :=
| HttpGet (url : string)
| TempFile (content : string)
| WriteFile (path content : string).

(** A computation reads the trace so far and returns a result with the trace
    extended; the trace survives an exception. *)
Definition M (A : Type) : Type := list event -> result A * list event.

Definition ret {A : Type} (a : A) : M A := fun tr => (Ok a, tr).
Definition raise {A : Type} (e : exn) : M A := fun tr => (Raise e, tr).
Definition out_of_fuel {A : Type} : M A := fun tr => (OutOfFuel, tr).
Definition emit (ev : event) : M unit := fun tr => (Ok tt, tr ++ [ev]).

Definition bind {A B : Type} (m : M A) (k : A -> M B) : M B :=
  fun tr =>
    match m tr with
    | (Ok a, tr') => k a tr'
    | (Raise e, tr') => (Raise e, tr')
    | (OutOfFuel, tr') => (OutOfFuel, tr')
    end.

Definition lift {A : Type} (r : result A) : M A := fun tr => (r, tr).

Declare Scope prog_scope.
Delimit Scope prog_scope with prog.
Notation "x <- m ;; k" := (bind m (fun x => k))
  (at level 61, m at next level, right associativity) : prog_scope.
Notation "' p <- m ;; k" := (bind m (fun x => match x with p => k end))
  (at level 61, p pattern, m at next level, right associativity) : prog_scope.
Notation "m ;;; k" := (bind m (fun _ => k))
  (at level 61, right associativity) : prog_scope.

(** [tag[key]]: a [KeyError] when the attribute is absent. *)
Definition getitem (e : element) (key : string) : result string :=
  match get_attr e key with
  | Some v => Ok v
  | None => Raise (KeyError key)
  end.

(** A response of the server: the status line and the page [html.parser]
    builds from the body. *)
Record Response : Type := mkResponse {
  status_code : Z;
  soup_of : element
}.

(** The network: [None] is a request that does not complete. *)
Definition Web : Type := string -> option Response.

(** [resp.raise_for_status()] raises on the 4xx and 5xx codes. *)
Definition is_error_status (code : Z) : bool :=
  ((400 <=? code) && (code <? 600))%Z.

(** ** The program *)

Definition BASE_URL : string := "https://news.ycombinator.com".

Definition LINK_LIMIT : Z := 10.

Definition CONTEXT_PROMPT : string :=
  nl +++ "## Context" +++ nl +++ nl +++
  "The following is a Hacker News thread in markdown format. The comments discuss a" +++ nl +++
  "certain link, of which the content (besides the title) is not included here. The" +++ nl +++
  "comments are indented according to the level of the comment, with the top-level" +++ nl +++
  "comment being unindented." +++ nl.

(** [user_exists(soup)] *)
Definition user_exists (soup : element) : bool :=
  negb (text soup =? "No such user.").

(** The tests the program hands to [find] and [find_all]. *)
Definition item_anchor (t : element) : bool :=
  has_name ["a"] t &&
  match get_attr t "href" with
  | Some h => item_pattern h
  | None => false
  end.

Definition more_anchor (t : element) : bool :=
  has_name ["a"] t &&
  match tag_string t with
  | Some s => s =? "More"
  | None => false
  end.

Definition comment_row (t : element) : bool := has_name ["tr"] t && has_class ["athing comtr"] t.
Definition indent_cell (t : element) : bool := has_name ["td"] t && has_class ["ind"] t.
Definition img_tag (t : element) : bool := has_name ["img"] t.
Definition hnuser_anchor (t : element) : bool := has_name ["a"] t && has_class ["hnuser"] t.
Definition comment_div (t : element) : bool := has_name ["div"] t && has_class ["comment"] t.
Definition reply_or_unvoted (t : element) : bool :=
  has_name ["div"; "span"] t && has_class ["reply"; "unvoted"] t.
Definition title_tag (t : element) : bool := has_name ["title"] t.

(** The absolute link of an item anchor: [BASE_URL + "/" + a["href"].lstrip("/")]. *)
Definition item_link (a : element) : result string :=
  match getitem a "href" with
  | Ok h => Ok (BASE_URL +++ "/" +++ lstrip "/" h)
  | Raise e => Raise e
  | OutOfFuel => OutOfFuel
  end.

Fixpoint map_result {A B : Type} (f : A -> result B) (l : list A) : result (list B) :=
  match l with
  | [] => Ok []
  | a :: r =>
      match f a with
      | Ok b =>
          match map_result f r with
          | Ok bs => Ok (b :: bs)
          | Raise e => Raise e
          | OutOfFuel => OutOfFuel
          end
      | Raise e => Raise e
      | OutOfFuel => OutOfFuel
      end
  end.

(** One comment: depth, author, body. *)
Definition comment : Type := (Z * string * string)%type.

Definition depth_of (c : comment) : Z := fst (fst c).
Definition author_of (c : comment) : string := snd (fst c).
Definition body_of (c : comment) : string := snd c.

(** [int(indent_td.img["width"]) if indent_td and indent_td.img else 0]: a tag
    is true whatever it holds, and [indent_td.img] is [indent_td.find("img")]. *)
Definition indent_img (row : element) : option element :=
  match find indent_cell row with
  | Some indent_td => find img_tag indent_td
  | None => None
  end.

Definition indent_px_of (row : element) : result Z :=
  match indent_img row with
  | Some img =>
      match getitem img "width" with
      | Ok w =>
          match py_int w with
          | Some px => Ok px
          | None =>
              Raise (ValueError (int_error_message w))
          end
      | Raise e => Raise e
      | OutOfFuel => OutOfFuel
      end
  | None => Ok 0%Z
  end.

(** What [commtext_td.find_all] raises when [commtext_td] is [None]. *)
Definition no_container : exn :=
  AttributeError "'NoneType' object has no attribute 'find_all'".

(** The body of the loop over the comment rows of a thread page. *)
Definition flatten_row (row : element) : result comment :=
  match getitem row "id" with
  | Ok cid =>
      match indent_px_of row with
      | Ok indent_px =>
          let indent_level := (indent_px / 40)%Z in
          let author := find hnuser_anchor row in
          let author_text :=
            match author with
            | Some a => text a
            | None => "[deleted]"
            end in
          match find comment_div row with
          | Some commtext_td =>
              let commtext_td := decompose_all reply_or_unvoted commtext_td in
              let comment_html := strip (get_text nl commtext_td) in
              Ok (indent_level, author_text, comment_html)
          | None => Raise no_container
          end
      | Raise e => Raise e
      | OutOfFuel => OutOfFuel
      end
  | Raise e => Raise e
  | OutOfFuel => OutOfFuel
  end.

(** The rows are tags of one tree, and the loop changes that tree while it
    walks the list [find_all] returned: what a row decomposes is gone for the
    rows read after it.  A tag is known by its path, the positions of the
    children that lead to it from the root. *)
Definition path : Type := list nat.

Fixpoint is_prefix (p q : path) : bool :=
  match p, q with
  | [], _ => true
  | i :: p', j :: q' => Nat.eqb i j && is_prefix p' q'
  | _ :: _, [] => false
  end.

(** The descendants of the element at [p], each with its path, in document
    order. *)
Fixpoint descendants_at (p : path) (e : element) : list (path * element) :=
  match e with
  | NavigableString _ => []
  | Tag _ _ cs =>
      (fix children (i : nat) (l : list element) : list (path * element) :=
         match l with
         | [] => []
         | c :: r => (p ++ [i], c) :: descendants_at (p ++ [i]) c ++ children (S i) r
         end) O cs
  end.

(** [tag.find_all(...)] with the paths of what is found. *)
Definition find_all_at (test : element -> bool) (p : path) (e : element)
    : list (path * element) :=
  filter (fun qe => test (snd qe)) (descendants_at p e).

(** A tag is gone when it, or a tag that holds it, was decomposed. *)
Definition gone (decomposed : list path) (q : path) : bool :=
  existsb (fun r => is_prefix r q) decomposed.

(** The element at [p] as it stands once the tags at [decomposed] are
    decomposed: their subtrees are out of the contents of their parents. *)
Fixpoint view (decomposed : list path) (p : path) (e : element) : element :=
  match e with
  | NavigableString s => NavigableString s
  | Tag n a cs =>
      Tag n a
        ((fix children (i : nat) (l : list element) : list element :=
            match l with
            | [] => []
            | c :: r =>
                if gone decomposed (p ++ [i]) then children (S i) r
                else view decomposed (p ++ [i]) c :: children (S i) r
            end) O cs)
  end.

(** What a decomposed tag raises when it is subscripted: its attributes are
    cleared, and [tag.attrs] is [None]. *)
Definition destroyed_tag : exn := TypeError "'NoneType' object is not subscriptable".

(** The tags the row at [p] decomposes: the [div] and [span] of class [reply]
    or [unvoted] below its comment container, the first [div] of class
    [comment] that is still in the row. *)
Definition decomposed_by (decomposed : list path) (p : path) (e : element) : list path :=
  let alive :=
    filter (fun qe => negb (gone decomposed (fst qe))) (descendants_at p e) in
  match hd_error (filter (fun qe => comment_div (snd qe)) alive) with
  | Some (q, _) =>
      map fst
        (filter (fun qe => reply_or_unvoted (snd qe)
                           && is_prefix q (fst qe)
                           && (length q <? length (fst qe))%nat) alive)
  | None => []
  end.

(** One turn of the loop over the rows: the row is read as it stands, and
    what it decomposes is added to what is gone. *)
Definition flatten_row_at (decomposed : list path) (row : path * element)
    : result (comment * list path) :=
  if gone decomposed (fst row) then Raise destroyed_tag
  else
    match flatten_row (view decomposed (fst row) (snd row)) with
    | Ok c => Ok (c, decomposed ++ decomposed_by decomposed (fst row) (snd row))
    | Raise e => Raise e
    | OutOfFuel => OutOfFuel
    end.

(** [for row in comment_rows: ... comments.append(...)] *)
Fixpoint flatten_rows (rows : list (path * element)) (decomposed : list path)
    (comments : list comment) : result (list comment) :=
  match rows with
  | [] => Ok comments
  | row :: rest =>
      match flatten_row_at decomposed row with
      | Ok (c, decomposed') => flatten_rows rest decomposed' (comments ++ [c])
      | Raise e => Raise e
      | OutOfFuel => OutOfFuel
      end
  end.

(** [soup.find_all("tr", class_="athing comtr")] *)
Definition comment_rows_of (soup : element) : list (path * element) :=
  find_all_at comment_row [] soup.

(** The rows as they stand when the loop reads them, for as long as it reads
    them, and what is decomposed once rows are read. *)
Fixpoint rows_as_read (rows : list (path * element)) (decomposed : list path)
    : list element :=
  match rows with
  | [] => []
  | row :: rest =>
      match flatten_row_at decomposed row with
      | Ok (_, decomposed') =>
          view decomposed (fst row) (snd row) :: rows_as_read rest decomposed'
      | _ => []
      end
  end.

Fixpoint decomposed_after (rows : list (path * element)) (decomposed : list path)
    : option (list path) :=
  match rows with
  | [] => Some decomposed
  | row :: rest =>
      match flatten_row_at decomposed row with
      | Ok (_, decomposed') => decomposed_after rest decomposed'
      | _ => None
      end
  end.

(** No row of the list lies in another: the paths of two of them are no
    prefix of one another. *)
Definition apart (p q : path) : bool := negb (is_prefix p q) && negb (is_prefix q p).

Fixpoint rows_apart (rows : list (path * element)) : bool :=
  match rows with
  | [] => true
  | row :: rest => forallb (fun r => apart (fst row) (fst r)) rest && rows_apart rest
  end.

(** The body of the loop that renders the comments: what one comment appends
    to [md_lines]. *)
Definition render_comment (md_lines : list string) (c : comment) : list string :=
  let '(indent, author, body) := c in
  let indent_str := str_mul "  " indent in
  md_lines
    ++ [indent_str +++ "- **" +++ author +++ "**:" +++ nl]
    ++ map (fun line => indent_str +++ "  " +++ line) (splitlines body)
    ++ [""].

(** Lines 131 to 145 of the source: the document for a title and its
    comments. *)
Definition render (title_text : string) (comments : list comment) : string :=
  let md_lines := ["# " +++ title_text +++ nl +++ nl] in
  let md_lines := md_lines ++ [strip CONTEXT_PROMPT +++ nl +++ nl] in
  let md_lines := md_lines ++ ["## Comments" +++ nl +++ nl] in
  join nl (fold_left render_comment comments md_lines).

(** The lines of a document, for reading it line by line: the text between
    line feeds. *)
Fixpoint lines_from (cur s : string) : list string :=
  match s with
  | EmptyString => [cur]
  | String c r =>
      if Ascii.eqb c LF then cur :: lines_from "" r else lines_from (snoc cur c) r
  end.

Definition lines_of (doc : string) : list string := lines_from "" doc.

(** Line [a] stands immediately before line [b] in [ls]. *)
Fixpoint adjacentb (a b : string) (ls : list string) : bool :=
  match ls with
  | x :: ((y :: _) as r) => ((x =? a) && (y =? b)) || adjacentb a b r
  | _ => false
  end.

(** Induction on a page: a property of tags that follows from the property
    of their children holds of every element. *)
Fixpoint element_induction (P : element -> Prop)
    (Hstring : forall s, P (NavigableString s))
    (Htag : forall n a cs, Forall P cs -> P (Tag n a cs))
    (e : element) : P e :=
  match e with
  | NavigableString s => Hstring s
  | Tag n a cs =>
      Htag n a cs
        ((fix children (l : list element) : Forall P l :=
            match l with
            | [] => Forall_nil P
            | c :: r => Forall_cons c (element_induction P Hstring Htag c) (children r)
            end) cs)
  end.


Fixpoint no_space (s : string) : bool :=
  match s with
  | EmptyString => true
  | String d r => negb (py_isspace d) && no_space r
  end.

(** The first and the last character of a string. *)
Definition first_char (s : string) : option ascii :=
  match s with
  | EmptyString => None
  | String c _ => Some c
  end.

Fixpoint last_char (s : string) : option ascii :=
  match s with
  | EmptyString => None
  | String c EmptyString => Some c
  | String _ r => last_char r
  end.

(** The three entries [md_lines] starts with, joined: what every document
    begins with. *)
Definition doc_header (title_text : string) : string :=
  join nl ["# " +++ title_text +++ nl +++ nl; strip CONTEXT_PROMPT +++ nl +++ nl;
           "## Comments" +++ nl +++ nl].

(** The entries one comment adds to [md_lines]. *)
Definition comment_lines (c : comment) : list string := render_comment [] c.

(** [n] spaces. *)
Fixpoint spaces (n : nat) : string :=
  match n with
  | O => ""
  | S k => String " " (spaces k)
  end.

(** The entries of a comment, written with their indentation: the author
    line after [2 d] spaces, the lines of the body after [2 d + 2], and the
    empty entry. *)
Definition indented_lines (c : comment) : list string :=
  [spaces (2 * Z.to_nat (depth_of c)) +++ "- **" +++ author_of c +++ "**:" +++ nl]
    ++ map (fun line => spaces (2 * Z.to_nat (depth_of c) + 2) +++ line)
         (splitlines (body_of c))
    ++ [""].

(** The text nodes of an element that stand outside every [div] and [span]
    of class [reply] or [unvoted] below it. *)
Fixpoint kept_strings (e : element) : list string :=
  match e with
  | NavigableString s => [s]
  | Tag _ _ cs =>
      flat_map (fun c => if reply_or_unvoted c then [] else kept_strings c) cs
  end.

Definition is_write (ev : event) : bool :=
  match ev with
  | WriteFile _ _ => true
  | _ => false
  end.

(** The first listing page of a user: [f"{BASE_URL}/favorites?id={user}"]. *)
Definition favorites_url (user : string) : string :=
  BASE_URL +++ "/favorites?id=" +++ user.

(** ** Sample pages *)

Module Samples.

Definition anchor (href label : string) : element :=
  Tag "a" [("href", href)] [NavigableString label].

(** A listing with two pages: item 1 twice and item 2 on the first page,
    items 1 and 3 on the second. *)
Definition page1 : element :=
  BeautifulSoup
    [anchor "item?id=1" "First"; anchor "/item?id=2" "Second";
     anchor "item?id=1" "First again"; anchor "user?id=pg" "pg";
     anchor "favorites?id=pg&p=2" "More"].

Definition page2 : element :=
  BeautifulSoup [anchor "item?id=1" "First"; anchor "item?id=3" "Third"].

(** What the server answers for a user it does not know. *)
Definition no_user_page : element :=
  BeautifulSoup [NavigableString "No such user."].

(** Anchors whose [href] is near the item pattern. *)
Definition odd_page : element :=
  BeautifulSoup
    [anchor "x/item?id=1" "stray component"; anchor "//item?id=2" "two slashes";
     anchor ("item?id=3" +++ nl) "line feed"].

Definition row (id width author : string) (body : list element) : element :=
  Tag "tr" [("class", "athing comtr"); ("id", id)]
    [Tag "td" [("class", "ind")] [Tag "img" [("src", "s.gif"); ("width", width)] []];
     Tag "td" [("class", "default")]
       [Tag "a" [("href", "user?id=" +++ author); ("class", "hnuser")]
          [NavigableString author];
        Tag "div" [("class", "comment")]
          (body ++ [Tag "div" [("class", "reply")] [anchor "reply?id=1" "reply"]])]].

(** A row of a deleted comment: no width, no author link. *)
Definition deleted_row : element :=
  Tag "tr" [("class", "athing comtr"); ("id", "3")]
    [Tag "td" [("class", "default")]
       [Tag "div" [("class", "comment")] [NavigableString "[flagged]"]]].

(** A row without its comment container. *)
Definition bare_row : element :=
  Tag "tr" [("class", "athing comtr"); ("id", "4")]
    [Tag "td" [("class", "ind")] [Tag "img" [("width", "80")] []]].

Definition thread_rows : list element :=
  [row "1" "0" "alice" [NavigableString "hi"];
   row "2" "40" "bob" [NavigableString "reply"; Tag "p" [] [NavigableString "line2"]];
   deleted_row].

(** The comments of [thread_rows]. *)
Definition thread_comments : list comment :=
  [(0%Z, "alice", "hi"); (1%Z, "bob", "reply" +++ nl +++ "line2");
   (0%Z, "[deleted]", "[flagged]")].

Definition thread_page : element :=
  BeautifulSoup
    [Tag "title" [] [NavigableString "Test Thread"];
     Tag "table" [("class", "comment-tree")] thread_rows].

Definition broken_thread_page : element :=
  BeautifulSoup
    [Tag "title" [] [NavigableString "Broken"];
     Tag "table" [] [row "1" "0" "alice" [NavigableString "hi"]; bare_row]].

Definition thread_url : string := BASE_URL +++ "/item?id=1".
Definition broken_url : string := BASE_URL +++ "/item?id=2".

Definition web : Web := fun url =>
  if url =? favorites_url "pg" then Some (mkResponse 200 page1)
  else if url =? BASE_URL +++ "/favorites?id=pg&p=2" then Some (mkResponse 200 page2)
  else if url =? favorites_url "nobody" then Some (mkResponse 200 no_user_page)
  else if url =? favorites_url "odd" then Some (mkResponse 200 odd_page)
  else if url =? thread_url then Some (mkResponse 200 thread_page)
  else if url =? broken_url then Some (mkResponse 200 broken_thread_page)
  else if url =? favorites_url "down" then None
  else Some (mkResponse 404 (BeautifulSoup [NavigableString "Unknown."])).

(** Two iteration orders a set may have: the order of insertion, and its
    reverse. *)
Definition insertion_order (l : list string) : list string :=
  rev (nodup string_dec (rev l)).
Definition reverse_order (l : list string) : list string := nodup string_dec (rev l).

Definition item (id : string) : string := BASE_URL +++ "/item?id=" +++ id.

(** The comments of the rendering scenario. *)
Definition scenario : list comment :=
  [(0%Z, "alice", "hi"); (1%Z, "bob", "reply" +++ nl +++ "line2")].

End Samples.

(** A machine and two file systems: one that opens every path, one whose
    directory [/tmp/hn] has no subdirectory. *)
Module Machine.

Definition maxsize : Z := 9223372036854775807.
Definition memory : Z := 1073741824.

Definition open_ok (path : string) : option exn := None.
Definition write_ok (path md : string) : option exn := None.

Definition open_flat (path : string) : option exn :=
  match strip_prefix "/tmp/hn/" path with
  | Some name => if has_char "/" name then Some (OSError 2) else None
  | None => Some (OSError 2)
  end.

End Machine.

(** Threads with a comment row inside the comment container of another. *)
Module Nested.

(** The second row stands in the reply control of the first. *)
Definition inner_row : element :=
  Tag "tr" [("class", "athing comtr"); ("id", "2")]
    [Tag "div" [("class", "comment")] [NavigableString "inner"]].

Definition outer_row : element :=
  Tag "tr" [("class", "athing comtr"); ("id", "1")]
    [Tag "div" [("class", "comment")]
       [NavigableString "outer"; Tag "div" [("class", "reply")] [inner_row]]].

(** The second row stands in the container of the first, its indentation
    cell and author link in a vote marker. *)
Definition marked_row : element :=
  Tag "tr" [("class", "athing comtr"); ("id", "2")]
    [Tag "span" [("class", "unvoted")]
       [Tag "td" [("class", "ind")] [Tag "img" [("width", "80")] []];
        Tag "a" [("class", "hnuser")] [NavigableString "bob"]];
     Tag "div" [("class", "comment")] [NavigableString "inner"]].

Definition holding_row : element :=
  Tag "tr" [("class", "athing comtr"); ("id", "1")]
    [Tag "div" [("class", "comment")] [NavigableString "outer"; marked_row]].

Definition thread (row : element) : element :=
  BeautifulSoup [Tag "title" [] [NavigableString "Nested"]; Tag "table" [] [row]].

End Nested.

(** More sample pages: listings that end, loop or break, and threads with
    rows that lack something. *)
Module Corner.

Definition solo_page : element :=
  BeautifulSoup [Samples.anchor "item?id=11" "Eleven"; Samples.anchor "item?id=12" "Twelve"].

Definition loop_page : element :=
  BeautifulSoup [Samples.anchor "favorites?id=loop" "More"].

Definition torn_page : element :=
  BeautifulSoup
    [Samples.anchor "item?id=11" "Eleven"; Samples.anchor "favorites?id=torn&p=2" "More"].

Definition nohref_page : element :=
  BeautifulSoup
    [Samples.anchor "item?id=11" "Eleven"; Tag "a" [] [NavigableString "More"]].

(** A thread page without [title] tag. *)
Definition untitled_thread : element :=
  BeautifulSoup [Tag "table" [] [Samples.row "1" "0" "alice" [NavigableString "hi"]]].

Definition one_row_thread (row : element) : element :=
  BeautifulSoup [Tag "title" [] [NavigableString "Thread"]; Tag "table" [] [row]].

(** A thread whose title holds a slash. *)
Definition slashed_thread : element :=
  BeautifulSoup [Tag "title" [] [NavigableString "Ask HN: CI/CD?"]; Tag "table" [] []].

Definition comment_cell : element :=
  Tag "td" [] [Tag "div" [("class", "comment")] [NavigableString "text"]].

Definition no_id_row : element :=
  Tag "tr" [("class", "athing comtr")] [comment_cell].

Definition no_width_row : element :=
  Tag "tr" [("class", "athing comtr"); ("id", "5")]
    [Tag "td" [("class", "ind")] [Tag "img" [("src", "s.gif")] []]; comment_cell].

Definition bad_width_row : element :=
  Tag "tr" [("class", "athing comtr"); ("id", "6")]
    [Tag "td" [("class", "ind")] [Tag "img" [("width", "40px")] []]; comment_cell].

Definition web : Web := fun url =>
  if url =? favorites_url "solo" then Some (mkResponse 200 solo_page)
  else if url =? favorites_url "loop" then Some (mkResponse 200 loop_page)
  else if url =? favorites_url "torn" then Some (mkResponse 200 torn_page)
  else if url =? BASE_URL +++ "/favorites?id=torn&p=2"
       then Some (mkResponse 500 (BeautifulSoup [NavigableString "Server error."]))
  else if url =? favorites_url "nohref" then Some (mkResponse 200 nohref_page)
  else if url =? Samples.item "11" then Some (mkResponse 200 untitled_thread)
  else if url =? Samples.item "12" then Some (mkResponse 200 (one_row_thread no_id_row))
  else if url =? Samples.item "13" then Some (mkResponse 200 (one_row_thread no_width_row))
  else if url =? Samples.item "14" then Some (mkResponse 200 (one_row_thread bad_width_row))
  else if url =? Samples.item "15" then Some (mkResponse 200 (Nested.thread Nested.outer_row))
  else if url =? Samples.item "16" then Some (mkResponse 200 slashed_thread)
  else None.

End Corner.

Section Program.

(** The [USER] global, read from the environment when the module loads. *)
Variable USER : string.

(** The network the run talks to. *)
Variable web : Web.

(** The order in which a Python [set] of strings built by inserting [l] is
    iterated.  Python fixes no order (it follows the hashes of the strings,
    which differ from process to process): the set has the elements of [l],
    each once. *)
Variable set_iter : list string -> list string.
Hypothesis set_iter_perm :
  forall l, Permutation (set_iter l) (nodup string_dec l).

(** The machine: [sys.maxsize], and the length of the longest string the
    interpreter finds memory for. *)
Variable maxsize : Z.
Variable memory : Z.

(** The file system: what [open(path, "w")] raises, if anything, and what
    writing a document to the open file and closing it raises. *)
Variable open_w : string -> option exn.
Variable write_w : string -> string -> option exn.

Local Open Scope prog_scope.

(** [requests.get(url)] followed by [resp.raise_for_status()] and the parse
    of the body. *)
Definition fetch_soup (url : string) : M element :=
  emit (HttpGet url) ;;;
  match web url with
  | None => raise ConnectionError
  | Some resp =>
      if is_error_status (status_code resp) then raise (HTTPError (status_code resp))
      else ret (soup_of resp)
  end.

(** The part of [get_item_links_from_page] that follows the parse. *)
Definition extract_links (soup : element) : result (list string * option string) :=
  if negb (user_exists soup) then
    Raise (ValueError ("Specify valid user instead of '" +++ USER +++ "'"))
  else
    match map_result item_link (find_all item_anchor soup) with
    | Ok inserted =>
        let links := set_iter inserted in
        let more_link := find more_anchor soup in
        match more_link with
        | Some m =>
            match getitem m "href" with
            | Ok h => Ok (links, Some (BASE_URL +++ "/" +++ h))
            | Raise e => Raise e
            | OutOfFuel => OutOfFuel
            end
        | None => Ok (links, None)
        end
    | Raise e => Raise e
    | OutOfFuel => OutOfFuel
    end.

Definition get_item_links_from_page (url : string) : M (list string * option string) :=
  soup <- fetch_soup url ;;
  lift (extract_links soup).

(** The [while url:] loop.  [url] is [None] or a URL that starts with
    [BASE_URL], so its truth is that of [url is not None]. *)
Fixpoint while_url (fuel : nat) (limit : Z) (url : option string)
    (all_links : list string) : M (list string) :=
  match url with
  | None => ret all_links
  | Some u =>
      match fuel with
      | O => out_of_fuel
      | S fuel' =>
          '(links, url') <- get_item_links_from_page u ;;
          let all_links := all_links ++ links in
          if (limit <=? Z.of_nat (length all_links))%Z then ret (slice_to all_links limit)
          else while_url fuel' limit url' all_links
      end
  end.

Definition retrieve_user_favorite_links (fuel : nat) (user : string) (limit : Z)
    : M (list string) :=
  let url := favorites_url user in
  all_links <- while_url fuel limit (Some url) [] ;;
  emit (TempFile (String.concat "" (map (fun link => link +++ nl) all_links))) ;;;
  ret all_links.

(** ["  " * indent]: the length must fit an index, and the string the
    memory. *)
Definition repeat_indent (indent : Z) : result string :=
  if (maxsize <? indent)%Z then
    Raise (OverflowError "cannot fit 'int' into an index-sized integer")
  else if (maxsize <? 2 * indent)%Z then Raise (OverflowError "repeated string is too long")
  else if (memory <? 2 * indent)%Z then Raise MemoryError
  else Ok (str_mul "  " indent).

(** Lines 131 to 145 on the machine: the document, when the indentation of
    every comment can be built. *)
Definition render_checked (title_text : string) (comments : list comment) : result string :=
  match map_result (fun c => repeat_indent (depth_of c)) comments with
  | Ok _ => Ok (render title_text comments)
  | Raise e => Raise e
  | OutOfFuel => OutOfFuel
  end.


Definition fetch_hn_thread_markdown (url : string) : M (string * string) :=
  soup <- fetch_soup url ;;
  let title_text :=
    match find title_tag soup with
    | Some title => text title
    | None => "hn_" +++ split_last "=" url
    end in
  comments <- lift (flatten_rows (comment_rows_of soup) [] []) ;;
  md <- lift (render_checked title_text comments) ;;
  ret (title_text, md).

(** What [get_item_links_from_page] returns for a URL, whatever was done
    before the call. *)
Definition page_result (url : string) : result (list string * option string) :=
  fst (get_item_links_from_page url []).

(** The listing as the walker finds it without a limit: the links of the
    first [n] pages, page by page, following the next-page URLs from [url] for
    as long as pages load. *)
Fixpoint pages (n : nat) (url : option string) : list (list string) :=
  match n, url with
  | S n', Some u =>
      match page_result u with
      | Ok (links, next) => links :: pages n' next
      | _ => []
      end
  | _, _ => []
  end.

(** [for x in l: body(x)] *)
Fixpoint for_each {A : Type} (l : list A) (body : A -> M unit) : M unit :=
  match l with
  | [] => ret tt
  | a :: r => body a ;;; for_each r body
  end.

(** What the [with open(path, "w") ...] block of [main] raises, if anything. *)
Definition file_fault (path md : string) : option exn :=
  match open_w path with
  | Some e => Some e
  | None => write_w path md
  end.

(** The body of the loop of [main]: fetch a thread and write its document to
    [tmpdir/title.md].  The event stands for a document written in full. *)
Definition save_thread (tmpdir link : string) : M unit :=
  '(title, md) <- fetch_hn_thread_markdown link ;;
  match file_fault (tmpdir +++ "/" +++ title +++ ".md") md with
  | Some e => raise e
  | None => emit (WriteFile (tmpdir +++ "/" +++ title +++ ".md") md)
  end.

(** [main()]: the defaults of the walker are [USER] and [LINK_LIMIT]; the
    name of the temporary directory, made of the time of the call, is
    [tmpdir]. *)
Definition main (fuel : nat) (tmpdir : string) : M unit :=
  links <- retrieve_user_favorite_links fuel USER LINK_LIMIT ;;
  for_each links (save_thread tmpdir).

(** The link an item anchor stands for. *)
Definition link_of (a : element) : string :=
  match get_attr a "href" with
  | Some h => BASE_URL +++ "/" +++ lstrip "/" h
  | None => BASE_URL +++ "/"
  end.

(** The comments of a page, as [fetch_hn_thread_markdown] collects them. *)
Definition comments_of (soup : element) : result (list comment) :=
  flatten_rows (comment_rows_of soup) [] [].

(** What the temporary file of the walker holds: a link a line. *)
Definition tmpfile_content (links : list string) : string :=
  String.concat "" (map (fun link => link +++ nl) links).

(** The URL the walker turns to after [n] pages of the listing that starts
    at [url]. *)
Fixpoint url_after (n : nat) (url : option string) : option string :=
  match n, url with
  | O, _ => url
  | S n', Some u =>
      match page_result u with
      | Ok (_, next) => url_after n' next
      | _ => None
      end
  | S _, None => None
  end.

(** A request that stays below [BASE_URL]; the other events pass. *)
Definition on_origin (ev : event) : bool :=
  match ev with
  | HttpGet u => String.prefix (BASE_URL +++ "/") u
  | _ => true
  end.

(** What [fetch_hn_thread_markdown] returns for a URL, whatever was done
    before the call. *)
Definition thread_result (url : string) : result (string * string) :=
  fst (fetch_hn_thread_markdown url []).

(** What [save_thread] adds to the trace for a link. *)
Definition saved_events (tmpdir link : string) : list event :=
  match thread_result link with
  | Ok (title, md) =>
      match file_fault (tmpdir +++ "/" +++ title +++ ".md") md with
      | Some _ => [HttpGet link]
      | None => [HttpGet link; WriteFile (tmpdir +++ "/" +++ title +++ ".md") md]
      end
  | _ => [HttpGet link]
  end.

(** What [save_thread] returns for a link. *)
Definition save_result (tmpdir link : string) : result unit :=
  match thread_result link with
  | Ok (title, md) =>
      match file_fault (tmpdir +++ "/" +++ title +++ ".md") md with
      | Some e => Raise e
      | None => Ok tt
      end
  | Raise e => Raise e
  | OutOfFuel => OutOfFuel
  end.

(** ** Properties *)

Lemma fetch_soup_trace : forall url tr,
  snd (fetch_soup url tr) = tr ++ [HttpGet url].
Proof.
  intros url tr. unfold fetch_soup, bind, emit. simpl.
  destruct (web url) as [resp|]; [|reflexivity].
  destruct (is_error_status (status_code resp)); reflexivity.
Qed.

Lemma fetch_soup_result : forall url tr,
  fst (fetch_soup url tr) = fst (fetch_soup url []).
Proof.
  intros url tr. unfold fetch_soup, bind, emit. simpl.
  destruct (web url) as [resp|]; [|reflexivity].
  destruct (is_error_status (status_code resp)); reflexivity.
Qed.

Lemma fetch_soup_ok : forall url resp tr,
  web url = Some resp -> is_error_status (status_code resp) = false ->
  fetch_soup url tr = (Ok (soup_of resp), tr ++ [HttpGet url]).
Proof.
  intros url resp tr Hw Hs. unfold fetch_soup, bind, emit. simpl.
  rewrite Hw, Hs. reflexivity.
Qed.

Lemma get_item_links_run : forall url tr,
  get_item_links_from_page url tr = (page_result url, tr ++ [HttpGet url]).
Proof.
  intros url tr. unfold page_result, get_item_links_from_page, bind, lift.
  pose proof (fetch_soup_trace url tr) as Ht.
  pose proof (fetch_soup_result url tr) as Hr.
  pose proof (fetch_soup_trace url []) as Ht0.
  destruct (fetch_soup url tr) as [r t], (fetch_soup url []) as [r0 t0].
  simpl in *. subst. destruct r0; reflexivity.
Qed.

Lemma page_result_ok : forall url resp,
  web url = Some resp -> is_error_status (status_code resp) = false ->
  page_result url = extract_links (soup_of resp).
Proof.
  intros url resp Hw Hs. unfold page_result, get_item_links_from_page, bind, lift.
  rewrite (fetch_soup_ok url resp [] Hw Hs). reflexivity.
Qed.

Lemma item_links_total : forall l,
  Forall (fun a => item_anchor a = true) l ->
  map_result item_link l = Ok (map link_of l).
Proof.
  induction l as [|a l IH]; intros Hall; [reflexivity|].
  inversion Hall as [|? ? Ha Hl]; subst. simpl.
  rewrite (IH Hl).
  unfold item_anchor in Ha. apply andb_prop in Ha as [_ Ha].
  unfold item_link, link_of, getitem.
  destruct (get_attr a "href"); [reflexivity|discriminate].
Qed.

Lemma find_all_Forall : forall p e, Forall (fun a => p a = true) (find_all p e).
Proof.
  intros p e. apply Forall_forall. intros a Ha.
  apply filter_In in Ha. destruct Ha as [_ Ha]. exact Ha.
Qed.

(** [extract_links] with the comprehension evaluated. *)
Lemma extract_links_eq : forall soup,
  extract_links soup =
  if negb (user_exists soup) then
    Raise (ValueError ("Specify valid user instead of '" +++ USER +++ "'"))
  else
    let links := set_iter (map link_of (find_all item_anchor soup)) in
    match find more_anchor soup with
    | Some m =>
        match get_attr m "href" with
        | Some h => Ok (links, Some (BASE_URL +++ "/" +++ h))
        | None => Raise (KeyError "href")
        end
    | None => Ok (links, None)
    end.
Proof.
  intros soup. unfold extract_links.
  rewrite (item_links_total _ (find_all_Forall item_anchor soup)).
  destruct (negb (user_exists soup)); [reflexivity|].
  destruct (find more_anchor soup) as [m|]; [|reflexivity].
  unfold getitem. destruct (get_attr m "href"); reflexivity.
Qed.

Lemma user_exists_false : forall soup,
  user_exists soup = false <-> text soup = "No such user.".
Proof.
  intros soup. unfold user_exists. rewrite negb_false_iff. apply String.eqb_eq.
Qed.

(** C4: a listing page whose whole text is the sentinel "No such user." makes
    the link extraction raise the invalid-user [ValueError], so that no links
    are returned; a page with any other text never raises that error. *)
Theorem invalid_user_raises : forall url resp tr,
  web url = Some resp -> is_error_status (status_code resp) = false ->
  (text (soup_of resp) = "No such user." ->
     fst (get_item_links_from_page url tr)
       = Raise (ValueError ("Specify valid user instead of '" +++ USER +++ "'"))
     /\ forall r, fst (get_item_links_from_page url tr) <> Ok r)
  /\ (text (soup_of resp) <> "No such user." ->
      forall msg, fst (get_item_links_from_page url tr) <> Raise (ValueError msg)).
Proof.
  intros url resp tr Hw Hs.
  rewrite get_item_links_run, (page_result_ok url resp Hw Hs), extract_links_eq.
  simpl fst. split.
  - intros Ht. apply user_exists_false in Ht. rewrite Ht. simpl.
    split; [reflexivity|discriminate].
  - intros Ht msg.
    destruct (user_exists (soup_of resp)) eqn:Hu.
    + simpl. destruct (find more_anchor (soup_of resp)) as [m|]; [|discriminate].
      destruct (get_attr m "href"); discriminate.
    + apply user_exists_false in Hu. contradiction.
Qed.

Lemma strip_prefix_spec : forall p s r,
  strip_prefix p s = Some r <-> s = p +++ r.
Proof.
  induction p as [|c p IH]; intros s r; simpl.
  - split; intros H; [inversion H|subst]; reflexivity.
  - destruct s as [|d s]; [split; discriminate|].
    destruct (Ascii.eqb_spec c d) as [->|Hne].
    + rewrite IH. split; intros H; [subst|inversion H]; reflexivity.
    + split; [discriminate|]. intros H. congruence.
Qed.

Lemma digits_dollar_spec : forall r seen,
  digits_dollar seen r = true <->
  exists ds e, r = ds +++ e /\ all_digits ds = true /\
    (seen = true \/ ds <> "") /\ (e = "" \/ e = nl).
Proof.
  induction r as [|c r IH]; intros seen; simpl.
  - split.
    + intros ->. exists "", "". auto.
    + intros (ds & e & Hr & _ & Hs & _).
      destruct ds; [|discriminate]. destruct Hs as [Hs|Hs]; [exact Hs|contradiction].
  - destruct (is_digit c) eqn:Hc.
    + rewrite IH. split.
      * intros (ds & e & -> & Hd & _ & He).
        exists (String c ds), e. simpl. rewrite Hc, Hd.
        repeat split; auto. right. discriminate.
      * intros (ds & e & Hr & Hd & Hs & He).
        destruct ds as [|d ds].
        -- simpl in Hr. subst e. destruct He as [He|He]; [discriminate|].
           inversion He; subst. discriminate.
        -- simpl in Hr, Hd. inversion Hr; subst.
           apply andb_prop in Hd as [_ Hd]. exists ds, e. auto.
    + split.
      * intros H. apply andb_prop in H as [-> H].
        destruct r; [|discriminate]. apply Ascii.eqb_eq in H. subst c.
        exists "", nl. auto.
      * intros (ds & e & Hr & Hd & Hs & He).
        destruct ds as [|d ds].
        -- simpl in Hr. subst e. destruct Hs as [->|Hs]; [|contradiction].
           destruct He as [He|He]; [discriminate|].
           inversion He; subst. reflexivity.
        -- simpl in Hr, Hd. inversion Hr; subst. rewrite Hc in Hd. discriminate.
Qed.

(** The strings the pattern accepts: [item?id=] and digits, after at most one
    slash, before at most one final line feed. *)
Lemma item_pattern_spec : forall h,
  item_pattern h = true <->
  exists slash ds e, h = slash +++ "item?id=" +++ ds +++ e /\
    (slash = "" \/ slash = "/") /\ ds <> "" /\ all_digits ds = true /\
    (e = "" \/ e = nl).
Proof.
  intros h. unfold item_pattern. split.
  - intros H.
    assert (Hcase : exists slash h', h = slash +++ h' /\ (slash = "" \/ slash = "/") /\
              match strip_prefix "item?id=" h' with
              | Some r => digits_dollar false r
              | None => false
              end = true).
    { destruct h as [|c r]; [exists "", ""; auto|].
      destruct (Ascii.eqb_spec c "/") as [->|Hne].
      - exists "/", r. auto.
      - exists "", (String c r). auto. }
    destruct Hcase as (slash & h' & -> & Hslash & Hm).
    destruct (strip_prefix "item?id=" h') as [r|] eqn:Hp; [|discriminate].
    apply strip_prefix_spec in Hp. subst h'.
    apply digits_dollar_spec in Hm as (ds & e & -> & Hd & Hs & He).
    exists slash, ds, e. repeat split; auto.
    destruct Hs as [Hs|Hs]; [discriminate|exact Hs].
  - intros (slash & ds & e & -> & Hslash & Hne & Hd & He).
    assert (Hm : digits_dollar false (ds +++ e) = true).
    { apply digits_dollar_spec. exists ds, e. auto. }
    destruct Hslash as [->| ->]; simpl; exact Hm.
Qed.

Lemma lstrip_item : forall slash rest,
  slash = "" \/ slash = "/" ->
  lstrip "/" (slash +++ "item?id=" +++ rest) = "item?id=" +++ rest.
Proof.
  intros slash rest [->| ->]; reflexivity.
Qed.

Lemma has_name_single : forall n e,
  has_name [n] e = true <-> name_of e = Some n.
Proof.
  intros n e. unfold has_name. destruct (name_of e) as [m|]; simpl.
  - rewrite orb_false_r, String.eqb_eq. split; intros H; [subst|inversion H]; reflexivity.
  - split; discriminate.
Qed.

Lemma set_iter_In : forall l u, In u (set_iter l) <-> In u l.
Proof.
  intros l u. rewrite <- (nodup_In string_dec l u). split; intros H.
  - eapply Permutation_in; [apply set_iter_perm|exact H].
  - eapply Permutation_in; [apply Permutation_sym, set_iter_perm|exact H].
Qed.

Lemma set_iter_NoDup : forall l, NoDup (set_iter l).
Proof.
  intros l. eapply Permutation_NoDup; [apply Permutation_sym, set_iter_perm|].
  apply NoDup_nodup.
Qed.

Lemma extract_links_set : forall soup links next,
  extract_links soup = Ok (links, next) ->
  links = set_iter (map link_of (find_all item_anchor soup)).
Proof.
  intros soup links next H. rewrite extract_links_eq in H.
  destruct (negb (user_exists soup)); [discriminate|]. simpl in H.
  destruct (find more_anchor soup) as [m|].
  - destruct (get_attr m "href"); inversion H; reflexivity.
  - inversion H; reflexivity.
Qed.

(** C6, as the code has it, for the pages of the embedding (characters
    below U+0100, among which the digits of [\d] are [0] to [9]): the
    extractor returns, each once, exactly the links [BASE_URL/item?id=<digits>]
    of the anchors whose [href] is [item?id=<digits>] after at most one leading
    slash (and before at most one final line feed, which [$] lets through and
    the link keeps); the two slash variants of an [href] give the same link;
    no other anchor contributes a link. *)
Theorem item_links_exact : forall soup links next,
  extract_links soup = Ok (links, next) ->
  NoDup links /\
  forall u, In u links <->
    exists a slash ds e,
      In a (descendants soup) /\ name_of a = Some "a" /\
      get_attr a "href" = Some (slash +++ "item?id=" +++ ds +++ e) /\
      (slash = "" \/ slash = "/") /\ ds <> "" /\ all_digits ds = true /\
      (e = "" \/ e = nl) /\
      u = BASE_URL +++ "/item?id=" +++ ds +++ e.
Proof.
  intros soup links next H. apply extract_links_set in H. subst links.
  split; [apply set_iter_NoDup|].
  intros u. rewrite set_iter_In, in_map_iff. split.
  - intros (a & Hu & Ha). apply filter_In in Ha as [Hd Ha].
    unfold item_anchor in Ha. apply andb_prop in Ha as [Hn Hh].
    apply has_name_single in Hn.
    unfold link_of in Hu.
    destruct (get_attr a "href") as [h|] eqn:Hattr; [|discriminate].
    apply item_pattern_spec in Hh as (slash & ds & e & -> & Hs & Hne & Hds & He).
    exists a, slash, ds, e. rewrite lstrip_item in Hu by exact Hs.
    repeat split; auto.
  - intros (a & slash & ds & e & Hd & Hn & Hattr & Hs & Hne & Hds & He & ->).
    exists a. split.
    + unfold link_of. rewrite Hattr, lstrip_item by exact Hs. reflexivity.
    + apply filter_In. split; [exact Hd|].
      unfold item_anchor. apply has_name_single in Hn. rewrite Hn, Hattr. simpl.
      apply item_pattern_spec. exists slash, ds, e. auto.
Qed.

(** One turn of the loop. *)
Lemma while_url_step : forall fuel limit u acc tr,
  while_url (S fuel) limit (Some u) acc tr =
  match page_result u with
  | Ok (links, next) =>
      if (limit <=? Z.of_nat (length (acc ++ links)))%Z
      then (Ok (slice_to (acc ++ links) limit), tr ++ [HttpGet u])
      else while_url fuel limit next (acc ++ links) (tr ++ [HttpGet u])
  | Raise e => (Raise e, tr ++ [HttpGet u])
  | OutOfFuel => (OutOfFuel, tr ++ [HttpGet u])
  end.
Proof.
  intros fuel limit u acc tr. simpl. unfold bind.
  rewrite get_item_links_run.
  destruct (page_result u) as [[links next]|e|]; try reflexivity.
  destruct (limit <=? Z.of_nat (length (acc ++ links)))%Z; reflexivity.
Qed.

Lemma retrieve_run : forall fuel user limit tr,
  retrieve_user_favorite_links fuel user limit tr =
  match while_url fuel limit (Some (favorites_url user)) [] tr with
  | (Ok all_links, tr') =>
      (Ok all_links,
       tr' ++ [TempFile (String.concat "" (map (fun link => link +++ nl) all_links))])
  | (Raise e, tr') => (Raise e, tr')
  | (OutOfFuel, tr') => (OutOfFuel, tr')
  end.
Proof.
  intros fuel user limit tr. unfold retrieve_user_favorite_links, bind.
  destruct (while_url fuel limit (Some (favorites_url user)) [] tr) as [[l|e|] tr'];
    reflexivity.
Qed.

Lemma slice_to_length : forall (l : list string) limit,
  (0 <= limit)%Z -> (limit <= Z.of_nat (length l))%Z ->
  Z.of_nat (length (slice_to l limit)) = limit.
Proof.
  intros l limit H0 Hl. unfold slice_to.
  destruct (Z.ltb_spec limit 0); [lia|].
  rewrite length_firstn. lia.
Qed.

Lemma slice_to_all : forall (l : list string) limit,
  (Z.of_nat (length l) < limit)%Z -> slice_to l limit = l.
Proof.
  intros l limit Hl. unfold slice_to.
  destruct (Z.ltb_spec limit 0); [lia|].
  apply firstn_all2. lia.
Qed.

(** The loop returns a list as long as the limit, or a shorter one that holds
    every link of the listing. *)
Lemma while_url_length : forall limit, (0 <= limit)%Z ->
  forall fuel u acc tr r tr',
  while_url fuel limit (Some u) acc tr = (Ok r, tr') ->
  Z.of_nat (length r) = limit \/
  ((Z.of_nat (length r) < limit)%Z /\
   forall n, (length acc + length (concat (pages n (Some u))) <= length r)%nat).
Proof.
  intros limit Hlim. induction fuel as [|fuel IH]; intros u acc tr r tr' Hrun.
  - discriminate.
  - rewrite while_url_step in Hrun.
    destruct (page_result u) as [[links next]|e|] eqn:Hp; try discriminate.
    destruct (Z.leb_spec limit (Z.of_nat (length (acc ++ links)))) as [Hle|Hlt].
    + inversion Hrun; subst. left. apply slice_to_length; assumption.
    + rewrite length_app in Hlt. destruct next as [u'|].
      * apply IH in Hrun as [Heq|[Hlt' Hall]]; [left; exact Heq|right].
        split; [exact Hlt'|]. intros n.
        destruct n as [|n]; simpl.
        -- specialize (Hall 0%nat). simpl in Hall. rewrite length_app in Hall. lia.
        -- rewrite Hp. simpl. specialize (Hall n).
           rewrite !length_app in *. lia.
      * destruct fuel; simpl in Hrun; inversion Hrun; subst; right;
          rewrite length_app; (split; [lia|]); intros n;
          (destruct n as [|n]; simpl; [lia|]); rewrite Hp;
          (destruct n; simpl; rewrite length_app; simpl; lia).
Qed.

(** With fuel for [n] pages, the loop returns once the first [n] pages hold
    enough links. *)
Lemma while_url_returns : forall limit, (0 <= limit)%Z ->
  forall n fuel u acc tr, (n <= fuel)%nat ->
  pages n (Some u) <> [] ->
  (limit <= Z.of_nat (length acc + length (concat (pages n (Some u)))))%Z ->
  exists r tr', while_url fuel limit (Some u) acc tr = (Ok r, tr') /\
                Z.of_nat (length r) = limit.
Proof.
  intros limit Hlim. induction n as [|n IH]; intros fuel u acc tr Hfuel Hne Htot.
  - contradiction Hne. reflexivity.
  - destruct fuel as [|fuel]; [lia|]. rewrite while_url_step.
    simpl in Hne, Htot.
    destruct (page_result u) as [[links next]|e|] eqn:Hp;
      try (contradiction Hne; reflexivity).
    simpl in Htot. rewrite length_app in Htot.
    destruct (Z.leb_spec limit (Z.of_nat (length (acc ++ links)))) as [Hle|Hlt].
    + eexists _, _. split; [reflexivity|]. apply slice_to_length; assumption.
    + rewrite length_app in Hlt.
      assert (Hmore : pages n next <> []).
      { intros Hnil. rewrite Hnil in Htot. simpl in Htot. lia. }
      destruct next as [u'|].
      * apply IH; [lia|exact Hmore|rewrite length_app; lia].
      * destruct n; contradiction Hmore; reflexivity.
Qed.

Lemma page_result_inv : forall u x,
  page_result u = Ok x ->
  exists resp, web u = Some resp /\ is_error_status (status_code resp) = false /\
               extract_links (soup_of resp) = Ok x.
Proof.
  intros u x H. unfold page_result, get_item_links_from_page, fetch_soup, bind, emit, lift in H.
  simpl in H. destruct (web u) as [resp|]; [|discriminate].
  exists resp. destruct (is_error_status (status_code resp)); [discriminate|].
  simpl in H. auto.
Qed.

(** C1: for a limit [L >= 0], a list the walker returns has at most [L]
    links, and exactly [L] when the first [n] pages of the listing hold at
    least [L] links between them (counted page by page, so all the more when
    they hold [L] different links); with fuel for these [n] pages the walker
    does return. *)
Theorem favorite_links_length : forall user limit, (0 <= limit)%Z ->
  (forall fuel tr r tr',
     retrieve_user_favorite_links fuel user limit tr = (Ok r, tr') ->
     (Z.of_nat (length r) <= limit)%Z /\
     forall n,
       (limit <= Z.of_nat (length (concat (pages n (Some (favorites_url user))))))%Z ->
       Z.of_nat (length r) = limit)
  /\ (forall n fuel tr, (n <= fuel)%nat ->
      pages n (Some (favorites_url user)) <> [] ->
      (limit <= Z.of_nat (length (concat (pages n (Some (favorites_url user))))))%Z ->
      exists r tr',
        retrieve_user_favorite_links fuel user limit tr = (Ok r, tr') /\
        Z.of_nat (length r) = limit).
Proof.
  intros user limit Hlim. split.
  - intros fuel tr r tr' Hrun. rewrite retrieve_run in Hrun.
    destruct (while_url fuel limit (Some (favorites_url user)) [] tr)
      as [[l|e|] tr0] eqn:Hloop; inversion Hrun; subst.
    apply (while_url_length limit Hlim) in Hloop as [Heq|[Hlt Hall]].
    + split; [lia|]. intros _ _. exact Heq.
    + split; [lia|]. intros n Hn. specialize (Hall n). simpl in Hall. lia.
  - intros n fuel tr Hfuel Hne Htot.
    destruct (while_url_returns limit Hlim n fuel (favorites_url user) [] tr Hfuel Hne)
      as (r & tr' & Hloop & Hlen); [simpl; exact Htot|].
    rewrite retrieve_run, Hloop. eexists _, _. split; [reflexivity|exact Hlen].
Qed.

(** The loop only adds to the trace. *)
Lemma while_url_trace : forall fuel limit url acc tr,
  exists rest, snd (while_url fuel limit url acc tr) = tr ++ rest.
Proof.
  induction fuel as [|fuel IH]; intros limit url acc tr.
  - exists []. rewrite app_nil_r. destruct url; reflexivity.
  - destruct url as [u|]; [|exists []; rewrite app_nil_r; reflexivity].
    rewrite while_url_step.
    destruct (page_result u) as [[links next]|e|]; try (exists [HttpGet u]; reflexivity).
    destruct (limit <=? Z.of_nat (length (acc ++ links)))%Z;
      [exists [HttpGet u]; reflexivity|].
    destruct (IH limit next (acc ++ links) (tr ++ [HttpGet u])) as [rest Hrest].
    exists (HttpGet u :: rest). rewrite Hrest, <- app_assoc. reflexivity.
Qed.

(** C10: the walker requests and checks the first listing page before it
    looks at the limit: for every limit the first thing a run does is the
    request of that page, and whatever the page raises is raised after that
    one request, the invalid-user error of a page with the sentinel text among
    them; with limit 0 a first page that loads and extracts is still
    requested, and the empty list is returned. *)
Theorem limit_zero_fetches_first_page : forall user fuel tr,
  (forall limit, exists rest,
     snd (retrieve_user_favorite_links (S fuel) user limit tr)
       = tr ++ HttpGet (favorites_url user) :: rest)
  /\ (forall limit e,
       page_result (favorites_url user) = Raise e ->
       retrieve_user_favorite_links (S fuel) user limit tr
         = (Raise e, tr ++ [HttpGet (favorites_url user)]))
  /\ (forall limit resp,
       web (favorites_url user) = Some resp ->
       is_error_status (status_code resp) = false ->
       text (soup_of resp) = "No such user." ->
       retrieve_user_favorite_links (S fuel) user limit tr
         = (Raise (ValueError ("Specify valid user instead of '" +++ USER +++ "'")),
            tr ++ [HttpGet (favorites_url user)]))
  /\ (forall links next,
       page_result (favorites_url user) = Ok (links, next) ->
       retrieve_user_favorite_links (S fuel) user 0 tr
         = (Ok [], tr ++ [HttpGet (favorites_url user); TempFile ""])).
Proof.
  intros user fuel tr.
  assert (Hraise : forall limit e,
            page_result (favorites_url user) = Raise e ->
            retrieve_user_favorite_links (S fuel) user limit tr
              = (Raise e, tr ++ [HttpGet (favorites_url user)])).
  { intros limit e Hp. rewrite retrieve_run, while_url_step, Hp. reflexivity. }
  split; [|split; [exact Hraise|split]].
  - intros limit. rewrite retrieve_run.
    destruct (while_url_trace (S fuel) limit (Some (favorites_url user)) [] tr)
      as [rest Hrest].
    assert (Hfirst : exists rest', rest = HttpGet (favorites_url user) :: rest').
    { rewrite while_url_step in Hrest.
      destruct (page_result (favorites_url user)) as [[links next]|e|];
        try (exists []; simpl in Hrest; apply app_inv_head in Hrest; congruence).
      destruct (limit <=? Z.of_nat (length ([] ++ links)))%Z.
      - exists []. simpl in Hrest. apply app_inv_head in Hrest. congruence.
      - destruct (while_url_trace fuel limit next ([] ++ links)
                    (tr ++ [HttpGet (favorites_url user)])) as [rest' Hrest'].
        exists rest'. rewrite Hrest', <- app_assoc in Hrest.
        apply app_inv_head in Hrest. simpl in Hrest. congruence. }
    destruct Hfirst as [rest' ->].
    destruct (while_url (S fuel) limit (Some (favorites_url user)) [] tr)
      as [[l|e|] tr0]; simpl in Hrest; subst tr0.
    + eexists. simpl. rewrite <- app_assoc. reflexivity.
    + eexists. reflexivity.
    + eexists. reflexivity.
  - intros limit resp Hw Hs Ht. apply Hraise.
    rewrite (page_result_ok _ resp Hw Hs), extract_links_eq.
    apply user_exists_false in Ht. rewrite Ht. reflexivity.
  - intros links next Hp. rewrite retrieve_run, while_url_step, Hp.
    destruct (Z.leb_spec 0 (Z.of_nat (length ([] ++ links)))) as [_|Hneg]; [|lia].
    unfold slice_to. simpl. rewrite <- app_assoc. reflexivity.
Qed.

Lemma flatten_row_at_ok : forall d row c d',
  flatten_row_at d row = Ok (c, d') ->
  gone d (fst row) = false /\
  flatten_row (view d (fst row) (snd row)) = Ok c /\
  d' = d ++ decomposed_by d (fst row) (snd row).
Proof.
  intros d row c d' H. unfold flatten_row_at in H.
  destruct (gone d (fst row)); [discriminate|].
  destruct (flatten_row (view d (fst row) (snd row))) as [c0|e|]; try discriminate.
  inversion H; subst. auto.
Qed.

(** The comments the loop appends are those of the rows as they stand when
    they are read, row by row. *)
Lemma flatten_rows_acc : forall rows d acc cs,
  flatten_rows rows d acc = Ok cs ->
  exists cs', cs = acc ++ cs' /\
    Forall2 (fun row c => flatten_row row = Ok c) (rows_as_read rows d) cs'.
Proof.
  induction rows as [|row rows IH]; intros d acc cs H; simpl in H.
  - inversion H; subst. exists []. rewrite app_nil_r. split; [reflexivity|constructor].
  - simpl. destruct (flatten_row_at d row) as [[c d']|e|] eqn:Hrow; try discriminate.
    apply IH in H as (cs' & -> & Hall).
    exists (c :: cs'). rewrite <- app_assoc. split; [reflexivity|].
    constructor; [|exact Hall].
    apply flatten_row_at_ok in Hrow. destruct Hrow as (_ & Hrow & _). exact Hrow.
Qed.

Lemma flatten_row_inv : forall row c,
  flatten_row row = Ok c ->
  exists px commtext_td,
    indent_px_of row = Ok px /\ find comment_div row = Some commtext_td /\
    c = ((px / 40)%Z,
         match find hnuser_anchor row with Some a => text a | None => "[deleted]" end,
         strip (get_text nl (decompose_all reply_or_unvoted commtext_td))).
Proof.
  intros row c H. unfold flatten_row in H.
  destruct (getitem row "id"); try discriminate.
  destruct (indent_px_of row) as [px| |]; try discriminate.
  destruct (find comment_div row) as [d|]; try discriminate.
  inversion H; subst. exists px, d. auto.
Qed.

(** Paths: a path is a prefix of what extends it, and two prefixes of one
    path are prefixes of one another. *)
Lemma is_prefix_app : forall p x, is_prefix p (p ++ x) = true.
Proof.
  induction p as [|i p IH]; intros x; simpl; [reflexivity|].
  rewrite Nat.eqb_refl. apply IH.
Qed.

Lemma is_prefix_trans : forall p q r,
  is_prefix p q = true -> is_prefix q r = true -> is_prefix p r = true.
Proof.
  induction p as [|i p IH]; intros q r Hpq Hqr; [reflexivity|].
  destruct q as [|j q]; [discriminate|]. destruct r as [|k r]; [discriminate|].
  simpl in *. apply andb_prop in Hpq as [Hij Hpq]. apply andb_prop in Hqr as [Hjk Hqr].
  apply Nat.eqb_eq in Hij, Hjk. subst. rewrite Nat.eqb_refl. apply (IH q r); assumption.
Qed.

Lemma is_prefix_comparable : forall p q z,
  is_prefix p z = true -> is_prefix q z = true ->
  is_prefix p q = true \/ is_prefix q p = true.
Proof.
  induction p as [|i p IH]; intros q z Hp Hq; [left; reflexivity|].
  destruct q as [|j q]; [right; reflexivity|].
  destruct z as [|k z]; [discriminate|]. simpl in *.
  apply andb_prop in Hp as [Hik Hp]. apply andb_prop in Hq as [Hjk Hq].
  apply Nat.eqb_eq in Hik, Hjk. subst. rewrite Nat.eqb_refl. simpl.
  apply (IH q z); assumption.
Qed.

Lemma descendants_at_prefix : forall e p q x,
  In (q, x) (descendants_at p e) -> is_prefix p q = true.
Proof.
  apply (element_induction
           (fun e => forall p q x, In (q, x) (descendants_at p e) -> is_prefix p q = true)).
  - intros s p q x [].
  - intros n a cs Hcs p q x. simpl. generalize O.
    induction Hcs as [|c cs Hc _ IH]; intros i Hin; [contradiction|].
    destruct Hin as [Heq|Hin].
    + inversion Heq; subst. apply is_prefix_app.
    + apply in_app_or in Hin as [Hin|Hin].
      * apply (is_prefix_trans p (p ++ [i]) q); [apply is_prefix_app|].
        apply (Hc _ _ _ Hin).
      * apply (IH _ Hin).
Qed.

(** A tree in which nothing is decomposed is seen as it is. *)
Lemma view_untouched : forall d e p,
  (forall r y, In r d -> is_prefix r (p ++ y) = false) ->
  view d p e = e.
Proof.
  intros d.
  apply (element_induction
           (fun e => forall p, (forall r y, In r d -> is_prefix r (p ++ y) = false) ->
                               view d p e = e)).
  - reflexivity.
  - intros n a cs Hcs p Hp. simpl. f_equal. generalize O.
    induction Hcs as [|c cs Hc _ IH]; intros i; [reflexivity|].
    assert (Hgone : gone d (p ++ [i]) = false).
    { unfold gone. apply not_true_is_false. intros Hex.
      apply existsb_exists in Hex as (r & Hr & Hpre).
      rewrite (Hp r [i] Hr) in Hpre. discriminate. }
    rewrite Hgone, IH. f_equal. apply Hc.
    intros r y Hr. rewrite <- app_assoc. apply Hp. exact Hr.
Qed.

Lemma decomposed_by_below : forall d p e r,
  In r (decomposed_by d p e) -> is_prefix p r = true.
Proof.
  intros d p e r H. unfold decomposed_by in H.
  destruct (hd_error _) as [[q x]|]; [|contradiction].
  apply in_map_iff in H as ([r' y] & <- & Hin).
  apply filter_In in Hin as [Hin _]. apply filter_In in Hin as [Hin _].
  apply (descendants_at_prefix e p r' y Hin).
Qed.

(** Rows that lie apart are read as they were parsed. *)
Lemma rows_apart_as_read : forall rows d cs acc,
  rows_apart rows = true ->
  (forall r, In r d -> forall row, In row rows -> apart r (fst row) = true) ->
  flatten_rows rows d acc = Ok cs ->
  rows_as_read rows d = map snd rows.
Proof.
  induction rows as [|row rows IH]; intros d cs acc Hapart Hd Hrun; [reflexivity|].
  simpl in *. apply andb_prop in Hapart as [Hrow Hrest].
  destruct (flatten_row_at d row) as [[c d']|e|] eqn:Hat; try discriminate.
  pose proof (flatten_row_at_ok _ _ _ _ Hat) as (_ & _ & ->).
  f_equal.
  - apply view_untouched. intros r y Hr.
    apply not_true_is_false. intros Hpre.
    pose proof (Hd r Hr row (or_introl eq_refl)) as Hap.
    unfold apart in Hap. apply andb_prop in Hap as [H1 H2].
    destruct (is_prefix_comparable r (fst row) (fst row ++ y) Hpre (is_prefix_app _ _))
      as [H|H]; rewrite H in *; discriminate.
  - apply (IH _ cs (acc ++ [c])); [exact Hrest| |exact Hrun].
    intros r Hr row' Hrow'. apply in_app_or in Hr as [Hr|Hr].
    + apply Hd; [exact Hr|right; exact Hrow'].
    + apply decomposed_by_below in Hr.
      rewrite forallb_forall in Hrow. specialize (Hrow row' Hrow').
      unfold apart in *. apply andb_prop in Hrow as [H1 H2].
      apply negb_true_iff in H1, H2. apply andb_true_intro. split; apply negb_true_iff.
      * apply not_true_is_false. intros H.
        rewrite (is_prefix_trans _ _ _ Hr H) in H1. discriminate.
      * apply not_true_is_false. intros H.
        destruct (is_prefix_comparable (fst row) (fst row') r Hr H) as [H'|H'];
          congruence.
Qed.

(** C5: the depth of every comment the flattener returns is the width of the
    indentation image of its row, read as an integer and divided by 40
    rounding down, and 0 for a row without an indentation cell or without an
    image in it.  The row is taken as it stands when the loop reads it; on a
    page whose comment rows do not lie in one another, that is the row as it
    was parsed. *)
Theorem depth_is_width_div_40 : forall soup comments,
  comments_of soup = Ok comments ->
  Forall2 (fun row c =>
             (find indent_cell row = None -> depth_of c = 0%Z) /\
             match indent_img row with
             | Some img =>
                 exists w px, get_attr img "width" = Some w /\ py_int w = Some px /\
                              depth_of c = (px / 40)%Z
             | None => depth_of c = 0%Z
             end)
          (rows_as_read (comment_rows_of soup) []) comments
  /\ (rows_apart (comment_rows_of soup) = true ->
      rows_as_read (comment_rows_of soup) [] = map snd (comment_rows_of soup)).
Proof.
  intros soup comments H. split.
  - apply flatten_rows_acc in H as (cs' & -> & Hall). simpl.
    induction Hall as [|row c rows cs Hrow _ IH]; constructor; [|exact IH].
    apply flatten_row_inv in Hrow as (px & d & Hpx & _ & ->).
    unfold depth_of. simpl. unfold indent_px_of in Hpx.
    assert (Himg : match indent_img row with
                   | Some img =>
                       exists w px0, get_attr img "width" = Some w /\
                                     py_int w = Some px0 /\ (px / 40 = px0 / 40)%Z
                   | None => (px / 40)%Z = 0%Z
                   end).
    { destruct (indent_img row) as [img|].
      - unfold getitem in Hpx. destruct (get_attr img "width") as [w|]; [|discriminate].
        destruct (py_int w) as [px0|] eqn:Hint; [|discriminate].
        inversion Hpx; subst. exists w, px. auto.
      - inversion Hpx; subst. reflexivity. }
    split; [|exact Himg].
    intros Hnone. unfold indent_img in Himg. rewrite Hnone in Himg. exact Himg.
  - intros Hapart. apply (rows_apart_as_read _ [] comments [] Hapart); [|exact H].
    intros r [].
Qed.

(** C8: the author of every comment the flattener returns is the text of the
    author link of its row, and the placeholder "[deleted]" for a row without
    one.  The row is taken as it stands when the loop reads it; on a page
    whose comment rows do not lie in one another, that is the row as it was
    parsed. *)
Theorem author_or_deleted : forall soup comments,
  comments_of soup = Ok comments ->
  Forall2 (fun row c =>
             match find hnuser_anchor row with
             | Some a => author_of c = text a
             | None => author_of c = "[deleted]"
             end)
          (rows_as_read (comment_rows_of soup) []) comments
  /\ (rows_apart (comment_rows_of soup) = true ->
      rows_as_read (comment_rows_of soup) [] = map snd (comment_rows_of soup)).
Proof.
  intros soup comments H. split.
  - apply flatten_rows_acc in H as (cs' & -> & Hall). simpl.
    induction Hall as [|row c rows cs Hrow _ IH]; constructor; [|exact IH].
    apply flatten_row_inv in Hrow as (px & d & _ & _ & ->).
    unfold author_of. simpl. destruct (find hnuser_anchor row); reflexivity.
  - intros Hapart. apply (rows_apart_as_read _ [] comments [] Hapart); [|exact H].
    intros r [].
Qed.

Lemma flatten_row_fuel : forall row, flatten_row row <> OutOfFuel.
Proof.
  intros row. unfold flatten_row, indent_px_of, getitem.
  destruct (get_attr row "id"); [|discriminate].
  destruct (indent_img row) as [img|].
  - destruct (get_attr img "width") as [w|]; [|discriminate].
    destruct (py_int w); [|discriminate].
    destruct (find comment_div row); discriminate.
  - destruct (find comment_div row); discriminate.
Qed.

Lemma flatten_row_at_fuel : forall d row, flatten_row_at d row <> OutOfFuel.
Proof.
  intros d row. unfold flatten_row_at.
  destruct (gone d (fst row)); [discriminate|].
  pose proof (flatten_row_fuel (view d (fst row) (snd row))) as H.
  destruct (flatten_row (view d (fst row) (snd row))); congruence.
Qed.

(** A row that yields no comment, however it stands, stops the loop with an
    exception. *)
Lemma flatten_rows_fail : forall pre row post d acc,
  (forall d' x, flatten_row_at d' row <> Ok x) ->
  exists e, flatten_rows (pre ++ row :: post) d acc = Raise e.
Proof.
  induction pre as [|r pre IH]; intros row post d acc Hrow; simpl.
  - destruct (flatten_row_at d row) as [x|e|] eqn:H.
    + contradiction (Hrow d x).
    + exists e. reflexivity.
    + contradiction (flatten_row_at_fuel d row).
  - destruct (flatten_row_at d r) as [[c d']|e|] eqn:H.
    + apply IH. exact Hrow.
    + exists e. reflexivity.
    + contradiction (flatten_row_at_fuel d r).
Qed.

(** The loop reaches a row with what the rows before it decomposed. *)
Lemma flatten_rows_first_fail : forall pre row post d acc d' e,
  decomposed_after pre d = Some d' ->
  flatten_row_at d' row = Raise e ->
  flatten_rows (pre ++ row :: post) d acc = Raise e.
Proof.
  induction pre as [|r pre IH]; intros row post d acc d' e Hpre Hrow; simpl in *.
  - inversion Hpre; subst. rewrite Hrow. reflexivity.
  - destruct (flatten_row_at d r) as [[c d0]|e0|]; try discriminate.
    apply (IH _ _ _ _ d'); assumption.
Qed.

Lemma fetch_thread_run : forall url resp tr,
  web url = Some resp -> is_error_status (status_code resp) = false ->
  fetch_hn_thread_markdown url tr =
  let title_text :=
    match find title_tag (soup_of resp) with
    | Some title => text title
    | None => "hn_" +++ split_last "=" url
    end in
  match comments_of (soup_of resp) with
  | Ok comments =>
      match render_checked title_text comments with
      | Ok md => (Ok (title_text, md), tr ++ [HttpGet url])
      | Raise e => (Raise e, tr ++ [HttpGet url])
      | OutOfFuel => (OutOfFuel, tr ++ [HttpGet url])
      end
  | Raise e => (Raise e, tr ++ [HttpGet url])
  | OutOfFuel => (OutOfFuel, tr ++ [HttpGet url])
  end.
Proof.
  intros url resp tr Hw Hs. unfold fetch_hn_thread_markdown, bind, lift.
  rewrite (fetch_soup_ok url resp tr Hw Hs). unfold comments_of. simpl.
  destruct (flatten_rows (comment_rows_of (soup_of resp)) [] []) as [cs|e|];
    reflexivity.
Qed.

Lemma fetch_thread_raises : forall url resp tr e,
  web url = Some resp -> is_error_status (status_code resp) = false ->
  comments_of (soup_of resp) = Raise e ->
  fst (fetch_hn_thread_markdown url tr) = Raise e.
Proof.
  intros url resp tr e Hw Hs Hc.
  rewrite (fetch_thread_run url resp tr Hw Hs), Hc. reflexivity.
Qed.

(** What is decomposed takes no tag into a tree: a test on names and
    attributes that fails on every tag of an element fails on every tag of
    its views. *)
Lemma view_test : forall (test : element -> bool) d p e,
  (forall n a cs cs', test (Tag n a cs) = test (Tag n a cs')) ->
  test (view d p e) = test e.
Proof.
  intros test d p [s|n a cs] Hloc; [reflexivity|]. simpl. apply Hloc.
Qed.

Lemma view_descendants : forall (test : element -> bool) d,
  (forall n a cs cs', test (Tag n a cs) = test (Tag n a cs')) ->
  forall e p,
    (forall x, In x (descendants e) -> test x = false) ->
    forall x, In x (descendants (view d p e)) -> test x = false.
Proof.
  intros test d Hloc.
  apply (element_induction
           (fun e => forall p, (forall x, In x (descendants e) -> test x = false) ->
                               forall x, In x (descendants (view d p e)) -> test x = false)).
  - intros s p _ x [].
  - intros n a cs Hcs p. simpl. generalize O.
    induction Hcs as [|c cs Hc _ IH]; intros i Hall x Hx; [contradiction|].
    simpl in Hall.
    assert (Hrest : forall y, In y (flat_map (fun c0 => c0 :: descendants c0) cs) ->
                              test y = false).
    { intros y Hy. apply Hall. right. apply in_or_app. right. exact Hy. }
    destruct (gone d (p ++ [i])); [apply (IH (S i) Hrest x Hx)|].
    simpl in Hx. destruct Hx as [<-|Hx].
    + rewrite (view_test test d _ c Hloc). apply Hall. left. reflexivity.
    + apply in_app_or in Hx as [Hx|Hx].
      * apply (Hc (p ++ [i])); [|exact Hx].
        intros y Hy. apply Hall. right. apply in_or_app. left. exact Hy.
      * apply (IH (S i) Hrest x Hx).
Qed.

Lemma find_none : forall test e,
  find test e = None <-> forall x, In x (descendants e) -> test x = false.
Proof.
  intros test e. unfold find, find_all.
  induction (descendants e) as [|y l IH]; simpl.
  - split; [intros _ x []|reflexivity].
  - destruct (test y) eqn:Hy.
    + split; [discriminate|]. intros H. rewrite (H y (or_introl eq_refl)) in Hy. discriminate.
    + rewrite IH. split.
      * intros H x [<-|Hx]; [exact Hy|apply H; exact Hx].
      * intros H x Hx. apply H. right. exact Hx.
Qed.

Lemma get_attr_view : forall d p e key, get_attr (view d p e) key = get_attr e key.
Proof.
  intros d p [s|n a cs] key; reflexivity.
Qed.

(** C9: a comment row without its comment container yields no comment and
    ends the run with an exception: no document is returned for a page that
    has such a row, and when the loop reaches the row, and the row has its
    [id] and a readable width, the exception is the fault of the access to
    the missing container. *)
Theorem missing_container_is_fatal : forall url resp tr pre row post,
  web url = Some resp -> is_error_status (status_code resp) = false ->
  comment_rows_of (soup_of resp) = pre ++ row :: post ->
  (find comment_div (snd row) = None ->
     exists e, fst (fetch_hn_thread_markdown url tr) = Raise e)
  /\ (forall d,
        decomposed_after pre [] = Some d ->
        gone d (fst row) = false ->
        find comment_div (view d (fst row) (snd row)) = None ->
        (forall c, flatten_row (view d (fst row) (snd row)) <> Ok c)
        /\ ((exists cid, get_attr (snd row) "id" = Some cid) ->
            (exists px, indent_px_of (view d (fst row) (snd row)) = Ok px) ->
            fst (fetch_hn_thread_markdown url tr) = Raise no_container)).
Proof.
  intros url resp tr pre row post Hw Hs Hrows.
  assert (Hno : forall row0, find comment_div row0 = None ->
                             forall c, flatten_row row0 <> Ok c).
  { intros row0 Hdiv c Hc. apply flatten_row_inv in Hc as (px & x & _ & Hx & _).
    congruence. }
  split.
  - intros Hdiv.
    destruct (flatten_rows_fail pre row post [] []) as [e He].
    + intros d [c d'] Hc. apply flatten_row_at_ok in Hc as (_ & Hc & _).
      apply (Hno _) in Hc; [exact Hc|].
      apply find_none. apply view_descendants; [reflexivity|].
      apply find_none. exact Hdiv.
    + exists e. apply (fetch_thread_raises url resp tr e Hw Hs).
      unfold comments_of. rewrite Hrows. exact He.
  - intros d Hpre Hgone Hdiv. split; [apply Hno; exact Hdiv|].
    intros [cid Hid] [px Hpx].
    apply (fetch_thread_raises url resp tr _ Hw Hs).
    unfold comments_of. rewrite Hrows.
    apply (flatten_rows_first_fail pre row post [] [] d _ Hpre).
    unfold flatten_row_at. rewrite Hgone.
    unfold flatten_row, getitem. rewrite get_attr_view, Hid, Hpx, Hdiv. reflexivity.
Qed.

(** C3, as the code has it: the document of the scenario has, after the
    heading, the preamble and the section heading, the lines of the two
    comments; the author line ends in a line feed of its own, so that an
    empty line stands between it and the first line of the body. *)
Theorem scenario_document_lines :
  lines_of (render "Test Thread" Samples.scenario) =
  ["# Test Thread"; ""; "";
   "## Context"; "";
   "The following is a Hacker News thread in markdown format. The comments discuss a";
   "certain link, of which the content (besides the title) is not included here. The";
   "comments are indented according to the level of the comment, with the top-level";
   "comment being unindented."; ""; "";
   "## Comments"; ""; "";
   "- **alice**:"; ""; "  hi"; "";
   "  - **bob**:"; ""; "    reply"; "    line2"; ""].
Proof.
  vm_compute. reflexivity.
Qed.

(** C7: the document depends on the page through the title and the comments
    only: two fetches, of one page or of two, that find the same title and the
    same comments return the same document, character for character; it is
    the rendering of that title and those comments. *)
Theorem rendering_is_deterministic :
  forall url1 url2 resp1 resp2 tr1 tr2 title comments doc1 doc2 tr1' tr2',
  web url1 = Some resp1 -> web url2 = Some resp2 ->
  comments_of (soup_of resp1) = Ok comments ->
  comments_of (soup_of resp2) = Ok comments ->
  fetch_hn_thread_markdown url1 tr1 = (Ok (title, doc1), tr1') ->
  fetch_hn_thread_markdown url2 tr2 = (Ok (title, doc2), tr2') ->
  doc1 = render title comments /\ doc2 = render title comments /\
  list_ascii_of_string doc1 = list_ascii_of_string doc2.
Proof.
  intros url1 url2 resp1 resp2 tr1 tr2 title comments doc1 doc2 tr1' tr2'
    Hw1 Hw2 Hc1 Hc2 Hrun1 Hrun2.
  assert (Hdoc : forall url resp tr doc tr',
            web url = Some resp -> comments_of (soup_of resp) = Ok comments ->
            fetch_hn_thread_markdown url tr = (Ok (title, doc), tr') ->
            doc = render title comments).
  { intros url resp tr doc tr' Hw Hc Hrun.
    destruct (is_error_status (status_code resp)) eqn:Hs.
    - unfold fetch_hn_thread_markdown, fetch_soup, bind, emit in Hrun. simpl in Hrun.
      rewrite Hw, Hs in Hrun. discriminate.
    - rewrite (fetch_thread_run url resp tr Hw Hs), Hc in Hrun. simpl in Hrun.
      unfold render_checked in Hrun.
      destruct (map_result (fun c => repeat_indent (depth_of c)) comments);
        inversion Hrun; subst; reflexivity. }
  pose proof (Hdoc _ _ _ _ _ Hw1 Hc1 Hrun1) as H1.
  pose proof (Hdoc _ _ _ _ _ Hw2 Hc2 Hrun2) as H2.
  subst. auto.
Qed.

(** ** Further properties of the walker *)

Lemma app_str_assoc : forall a b c : string, (a +++ b) +++ c = a +++ b +++ c.
Proof.
  induction a as [|x a IH]; intros b c; simpl; [reflexivity|].
  rewrite IH. reflexivity.
Qed.


Lemma prefix_app : forall p s : string, String.prefix p (p +++ s) = true.
Proof.
  induction p as [|c p IH]; intros s; simpl.
  - destruct s; reflexivity.
  - destruct (Ascii.ascii_dec c c) as [_|Hne]; [apply IH|contradiction].
Qed.

(** The trace of a run of the loop: requests, at most one a unit of fuel. *)
Lemma while_url_requests : forall limit fuel url acc tr,
  exists urls, (length urls <= fuel)%nat /\
    snd (while_url fuel limit url acc tr) = tr ++ map HttpGet urls.
Proof.
  intros limit. induction fuel as [|fuel IH]; intros url acc tr.
  - exists []. simpl. rewrite app_nil_r. split; [lia|]. destruct url; reflexivity.
  - destruct url as [u|].
    + rewrite while_url_step.
      destruct (page_result u) as [[links next]|e|];
        try (exists [u]; split; [simpl; lia|reflexivity]).
      destruct (limit <=? Z.of_nat (length (acc ++ links)))%Z.
      * exists [u]. split; [simpl; lia|reflexivity].
      * destruct (IH next (acc ++ links) (tr ++ [HttpGet u])) as (urls & Hlen & Htr).
        exists (u :: urls). split; [simpl; lia|].
        rewrite Htr, <- app_assoc. reflexivity.
    + exists []. simpl. rewrite app_nil_r. split; [lia|reflexivity].
Qed.

(** X1: a first page without a "More" anchor ends the walk after its one
    request: the walker returns the links of that page, cut at the limit
    (all of them when they are fewer than the limit), and writes them to the
    temporary file. *)
Theorem single_page_listing : forall user fuel limit tr links,
  page_result (favorites_url user) = Ok (links, None) ->
  retrieve_user_favorite_links (S fuel) user limit tr
    = (Ok (slice_to links limit),
       tr ++ [HttpGet (favorites_url user); TempFile (tmpfile_content (slice_to links limit))])
  /\ ((Z.of_nat (length links) < limit)%Z -> slice_to links limit = links).
Proof.
  intros user fuel limit tr links Hp.
  split; [|apply slice_to_all].
  rewrite retrieve_run, while_url_step, Hp. simpl app.
  destruct (Z.leb_spec limit (Z.of_nat (length links))) as [Hle|Hlt].
  - rewrite <- app_assoc. reflexivity.
  - rewrite (slice_to_all links limit Hlt).
    destruct fuel; simpl; rewrite <- app_assoc; reflexivity.
Qed.

(** X2: the walker adds to the trace one request for each page it visits, at
    most one a unit of fuel, and then, only when it returns a list, the
    temporary file, which holds the returned links, one a line; a run that
    raises writes no file. *)
Theorem walker_trace : forall fuel user limit tr,
  exists urls, (length urls <= fuel)%nat /\
    snd (retrieve_user_favorite_links fuel user limit tr)
      = tr ++ map HttpGet urls
           ++ match fst (retrieve_user_favorite_links fuel user limit tr) with
              | Ok r => [TempFile (tmpfile_content r)]
              | _ => []
              end.
Proof.
  intros fuel user limit tr. rewrite retrieve_run.
  destruct (while_url_requests limit fuel (Some (favorites_url user)) [] tr)
    as (urls & Hlen & Htr).
  exists urls. split; [exact Hlen|].
  destruct (while_url fuel limit (Some (favorites_url user)) [] tr) as [[r|e|] tr0];
    simpl in *; subst tr0; rewrite <- ?app_assoc, ?app_nil_r; reflexivity.
Qed.

(** X3: a negative limit is reached at once: the walker stops after the first
    page, whatever follows it, and returns the links of that page without the
    last [-limit] of them. *)
Theorem negative_limit_drops_last : forall user fuel limit tr links next,
  (limit < 0)%Z ->
  page_result (favorites_url user) = Ok (links, next) ->
  fst (retrieve_user_favorite_links (S fuel) user limit tr)
    = Ok (firstn (length links - Z.to_nat (- limit)) links)
  /\ snd (retrieve_user_favorite_links (S fuel) user limit tr)
     = tr ++ [HttpGet (favorites_url user);
              TempFile (tmpfile_content (firstn (length links - Z.to_nat (- limit)) links))].
Proof.
  intros user fuel limit tr links next Hneg Hp.
  rewrite retrieve_run, while_url_step, Hp. simpl app.
  destruct (Z.leb_spec limit (Z.of_nat (length links))) as [_|Hlt]; [|lia].
  unfold slice_to. destruct (Z.ltb_spec limit 0) as [_|Hge]; [|lia].
  replace (Z.to_nat (Z.of_nat (length links) + limit))
    with (length links - Z.to_nat (- limit))%nat by lia.
  simpl. rewrite <- app_assoc. split; reflexivity.
Qed.

Lemma extract_links_next : forall soup links u,
  extract_links soup = Ok (links, Some u) ->
  exists h, u = BASE_URL +++ "/" +++ h.
Proof.
  intros soup links u H. rewrite extract_links_eq in H.
  destruct (negb (user_exists soup)); [discriminate|]. simpl in H.
  destruct (find more_anchor soup) as [m|]; [|discriminate].
  destruct (get_attr m "href") as [h|]; [|discriminate].
  inversion H. exists h. reflexivity.
Qed.

Lemma while_url_on_origin : forall limit fuel u acc tr,
  String.prefix (BASE_URL +++ "/") u = true ->
  exists added, snd (while_url fuel limit (Some u) acc tr) = tr ++ added /\
                forallb on_origin added = true.
Proof.
  intros limit. induction fuel as [|fuel IH]; intros u acc tr Hu.
  - exists []. rewrite app_nil_r. split; reflexivity.
  - rewrite while_url_step.
    assert (Hone : forallb on_origin [HttpGet u] = true).
    { change (String.prefix (BASE_URL +++ "/") u && true = true).
      rewrite Hu. reflexivity. }
    destruct (page_result u) as [[links next]|e|] eqn:Hp;
      try (exists [HttpGet u]; split; [reflexivity|exact Hone]).
    destruct (limit <=? Z.of_nat (length (acc ++ links)))%Z;
      [exists [HttpGet u]; split; [reflexivity|exact Hone]|].
    destruct next as [u'|].
    + apply page_result_inv in Hp as (resp & _ & _ & Hx).
      apply extract_links_next in Hx as [h ->].
      destruct (IH (BASE_URL +++ "/" +++ h) (acc ++ links) (tr ++ [HttpGet u]))
        as (added & Htr & Hall).
      { rewrite <- app_str_assoc. apply prefix_app. }
      exists (HttpGet u :: added). split.
      * rewrite Htr, <- app_assoc. reflexivity.
      * change (String.prefix (BASE_URL +++ "/") u && forallb on_origin added = true).
        rewrite Hu. exact Hall.
    + exists [HttpGet u]. split; [|exact Hone].
      destruct fuel; reflexivity.
Qed.

(** X4: every request of the walker goes to a URL below [BASE_URL]: the
    first page and every next page are addressed relative to it, whatever the
    "More" anchors hold. *)
Theorem walker_stays_on_origin : forall fuel user limit tr,
  exists added,
    snd (retrieve_user_favorite_links fuel user limit tr) = tr ++ added /\
    forallb on_origin added = true.
Proof.
  intros fuel user limit tr. rewrite retrieve_run.
  destruct (while_url_on_origin limit fuel (favorites_url user) [] tr)
    as (added & Htr & Hall).
  { unfold favorites_url. change ("/favorites?id=" +++ user) with ("/" +++ "favorites?id=" +++ user).
    rewrite <- app_str_assoc. apply prefix_app. }
  destruct (while_url fuel limit (Some (favorites_url user)) [] tr) as [[r|e|] tr0];
    simpl in Htr; subst tr0.
  - exists (added ++ [TempFile (tmpfile_content r)]). split.
    + simpl. rewrite <- app_assoc. reflexivity.
    + rewrite forallb_app, Hall. reflexivity.
  - exists added. split; [reflexivity|exact Hall].
  - exists added. split; [reflexivity|exact Hall].
Qed.

(** X5: a "More" anchor without [href] on the first page makes the walker
    raise [KeyError] for every limit, also when the links of the page would
    reach it: the next-page URL is built before the limit is looked at. *)
Theorem more_without_href_raises : forall user fuel limit tr resp m,
  web (favorites_url user) = Some resp ->
  is_error_status (status_code resp) = false ->
  user_exists (soup_of resp) = true ->
  find more_anchor (soup_of resp) = Some m ->
  get_attr m "href" = None ->
  retrieve_user_favorite_links (S fuel) user limit tr
    = (Raise (KeyError "href"), tr ++ [HttpGet (favorites_url user)]).
Proof.
  intros user fuel limit tr resp m Hw Hs Hu Hm Hh.
  rewrite retrieve_run, while_url_step, (page_result_ok _ resp Hw Hs), extract_links_eq.
  rewrite Hu, Hm, Hh. reflexivity.
Qed.

Lemma while_url_raises_later : forall limit k fuel u acc tr u' e,
  (k < fuel)%nat ->
  length (pages k (Some u)) = k ->
  (Z.of_nat (length acc + length (concat (pages k (Some u)))) < limit)%Z ->
  url_after k (Some u) = Some u' ->
  page_result u' = Raise e ->
  exists urls, length urls = S k /\
    while_url fuel limit (Some u) acc tr = (Raise e, tr ++ map HttpGet urls).
Proof.
  intros limit. induction k as [|k IH]; intros fuel u acc tr u' e Hk Hlen Htot Hafter He.
  - destruct fuel as [|fuel]; [lia|]. simpl in Hafter. inversion Hafter; subst u'.
    rewrite while_url_step, He. exists [u]. split; reflexivity.
  - destruct fuel as [|fuel]; [lia|]. rewrite while_url_step.
    simpl in Hlen, Htot, Hafter.
    destruct (page_result u) as [[links next]|e0|] eqn:Hp; try discriminate.
    simpl in Hlen, Htot. rewrite length_app in Htot.
    destruct (Z.leb_spec limit (Z.of_nat (length (acc ++ links)))) as [Hle|Hlt].
    { rewrite length_app in Hle. lia. }
    destruct next as [u1|]; [|destruct k; discriminate].
    destruct (IH fuel u1 (acc ++ links) (tr ++ [HttpGet u]) u' e) as (urls & Hn & Hrun);
      try assumption; [lia|lia|rewrite length_app; lia|].
    exists (u :: urls). split; [simpl; lia|].
    rewrite Hrun, <- app_assoc. reflexivity.
Qed.

(** X6: when the first [k] pages load with fewer links than the limit and
    the page that follows them raises, the walker raises that exception after
    [k + 1] requests: the links collected so far are not returned, and no
    temporary file is written. *)
Theorem later_page_failure_propagates : forall k fuel user limit tr u' e,
  (k < fuel)%nat ->
  length (pages k (Some (favorites_url user))) = k ->
  (Z.of_nat (length (concat (pages k (Some (favorites_url user))))) < limit)%Z ->
  url_after k (Some (favorites_url user)) = Some u' ->
  page_result u' = Raise e ->
  exists urls, length urls = S k /\
    retrieve_user_favorite_links fuel user limit tr = (Raise e, tr ++ map HttpGet urls).
Proof.
  intros k fuel user limit tr u' e Hk Hlen Htot Hafter He.
  destruct (while_url_raises_later limit k fuel (favorites_url user) [] tr u' e)
    as (urls & Hn & Hrun); try assumption.
  exists urls. split; [exact Hn|]. rewrite retrieve_run, Hrun. reflexivity.
Qed.

(** X7: the walker keeps no record of the pages it has seen: when the first
    page has no item links and its "More" anchor leads back to the page
    itself, a positive limit is never reached and the walk never ends; every
    unit of fuel is spent on one more request of the same page. *)
Theorem self_linked_page_never_returns : forall user limit,
  (0 < limit)%Z ->
  page_result (favorites_url user) = Ok ([], Some (favorites_url user)) ->
  forall fuel tr,
    retrieve_user_favorite_links fuel user limit tr
      = (OutOfFuel, tr ++ repeat (HttpGet (favorites_url user)) fuel).
Proof.
  intros user limit Hlim Hp fuel tr. rewrite retrieve_run.
  assert (Hloop : while_url fuel limit (Some (favorites_url user)) [] tr
                  = (OutOfFuel, tr ++ repeat (HttpGet (favorites_url user)) fuel)).
  { revert tr. induction fuel as [|fuel IH]; intros tr.
    - simpl. rewrite app_nil_r. reflexivity.
    - rewrite while_url_step, Hp. simpl app.
      destruct (Z.leb_spec limit (Z.of_nat (@length string []))) as [Hle|_];
        [simpl in Hle; lia|].
      rewrite IH, <- app_assoc. reflexivity. }
  rewrite Hloop. reflexivity.
Qed.

(** ** Further properties of the thread documents *)





Lemma render_comment_app : forall md c,
  render_comment md c = md ++ comment_lines c.
Proof.
  intros md [[d a] b]. reflexivity.
Qed.

(** The loop over the comments adds the entries of each comment in turn. *)
Lemma fold_render_comment : forall cs md,
  fold_left render_comment cs md = md ++ flat_map comment_lines cs.
Proof.
  induction cs as [|c cs IH]; intros md; simpl.
  - rewrite app_nil_r. reflexivity.
  - rewrite IH, render_comment_app, <- app_assoc. reflexivity.
Qed.

Lemma join_app : forall sep l1 l2,
  l1 <> [] -> l2 <> [] ->
  join sep (l1 ++ l2) = join sep l1 +++ sep +++ join sep l2.
Proof.
  intros sep. induction l1 as [|x l1 IH]; intros l2 H1 H2; [contradiction H1; reflexivity|].
  destruct l1 as [|y l1].
  - destruct l2 as [|z l2]; [contradiction H2; reflexivity|]. reflexivity.
  - change (join sep ((x :: y :: l1) ++ l2))
      with (x +++ sep +++ join sep ((y :: l1) ++ l2)).
    rewrite (IH l2) by (assumption || discriminate).
    change (join sep (x :: y :: l1)) with (x +++ sep +++ join sep (y :: l1)).
    rewrite !app_str_assoc. reflexivity.
Qed.

Lemma comment_lines_nonempty : forall c cs, flat_map comment_lines (c :: cs) <> [].
Proof.
  intros [[d a] b] cs. discriminate.
Qed.

(** X9: a document is the header of its title (heading, preamble and section
    heading) and, after a line feed, the entries of the comments joined by
    line feeds, each comment rendered on its own, in order; without comments
    it is the header alone. *)
Theorem document_structure : forall title_text comments,
  render title_text comments =
  match comments with
  | [] => doc_header title_text
  | _ :: _ =>
      doc_header title_text +++ nl +++ join nl (flat_map comment_lines comments)
  end.
Proof.
  intros title_text comments. unfold render. rewrite fold_render_comment.
  destruct comments as [|c cs].
  - rewrite app_nil_r. reflexivity.
  - apply join_app; [discriminate|apply comment_lines_nonempty].
Qed.

Lemma spaces_add_two : forall n, spaces (n + 2) = spaces n +++ "  ".
Proof.
  induction n as [|n IH]; simpl; [reflexivity|]. rewrite IH. reflexivity.
Qed.

Lemma str_mul_spaces : forall depth, str_mul "  " depth = spaces (2 * Z.to_nat depth).
Proof.
  intros depth. unfold str_mul. induction (Z.to_nat depth) as [|n IH]; [reflexivity|].
  replace (2 * S n)%nat with (S (S (2 * n))) by lia. simpl repeat_nat.
  rewrite IH. reflexivity.
Qed.

Lemma comment_lines_indented : forall c, comment_lines c = indented_lines c.
Proof.
  intros [[d a] b]. unfold comment_lines, indented_lines, render_comment.
  simpl depth_of. simpl author_of. simpl body_of.
  rewrite str_mul_spaces. simpl app. f_equal. f_equal.
  apply map_ext. intros line. rewrite spaces_add_two, app_str_assoc. reflexivity.
Qed.

(** X10: in a document the author line of a comment of depth [d] starts with
    [2 d] spaces and every line of its body with [2 d + 2], none and two for
    a depth that is zero or negative: the document is the three entries of
    the header and these lines, joined by line feeds. *)
Theorem indentation_follows_depth : forall title_text comments,
  render title_text comments =
  join nl (["# " +++ title_text +++ nl +++ nl; strip CONTEXT_PROMPT +++ nl +++ nl;
            "## Comments" +++ nl +++ nl] ++ flat_map indented_lines comments)
  /\ forall depth, (depth <= 0)%Z -> spaces (2 * Z.to_nat depth) = "".
Proof.
  intros title_text comments. split.
  - unfold render. rewrite fold_render_comment. f_equal. f_equal.
    induction comments as [|c cs IH]; [reflexivity|].
    simpl. rewrite IH, comment_lines_indented. reflexivity.
  - intros depth Hd. replace (Z.to_nat depth) with O by lia. reflexivity.
Qed.

Lemma decompose_all_test : forall p : element -> bool,
  (forall n a cs cs', p (Tag n a cs) = p (Tag n a cs')) ->
  forall e, p (decompose_all p e) = p e.
Proof.
  intros p Hp [s|n a cs]; [reflexivity|]. simpl. apply Hp.
Qed.

(** After [decompose_all] no element that passes the test is left, for a
    test that looks at the name and the attributes of a tag only. *)
Lemma decompose_all_clean : forall p : element -> bool,
  (forall n a cs cs', p (Tag n a cs) = p (Tag n a cs')) ->
  forall e, Forall (fun d => p d = false) (descendants (decompose_all p e)).
Proof.
  intros p Hp. apply element_induction.
  - intros s. constructor.
  - intros n a cs Hcs. simpl.
    induction Hcs as [|c cs Hc _ IH]; simpl; [constructor|].
    destruct (p c) eqn:Hpc; [exact IH|]. simpl.
    constructor; [rewrite (decompose_all_test p Hp); exact Hpc|].
    apply Forall_app. split; [exact Hc|exact IH].
Qed.

Lemma decompose_all_strings : forall e,
  all_strings (decompose_all reply_or_unvoted e) = kept_strings e.
Proof.
  apply element_induction; [reflexivity|].
  intros n a cs Hcs. simpl.
  induction Hcs as [|c cs Hc _ IH]; simpl; [reflexivity|].
  destruct (reply_or_unvoted c); [exact IH|]. simpl. rewrite Hc, IH. reflexivity.
Qed.

(** X11: the body of a comment the flattener returns is made of the text of
    the comment container that stands outside every [div] and [span] of class
    [reply] or [unvoted], joined by line feeds and stripped; once these are
    decomposed, none is left in the container at any depth. *)
Theorem no_reply_left_in_container : forall row c,
  flatten_row row = Ok c ->
  exists commtext_td,
    find comment_div row = Some commtext_td /\
    body_of c = strip (join nl (kept_strings commtext_td)) /\
    find_all reply_or_unvoted (decompose_all reply_or_unvoted commtext_td) = [].
Proof.
  intros row c H. apply flatten_row_inv in H as (px & commtext_td & _ & Hdiv & ->).
  exists commtext_td. split; [exact Hdiv|]. split.
  - unfold body_of, get_text. simpl snd. rewrite decompose_all_strings. reflexivity.
  - assert (Hclean : Forall (fun d => reply_or_unvoted d = false)
                       (descendants (decompose_all reply_or_unvoted commtext_td))).
    { apply decompose_all_clean. intros n a cs cs'. reflexivity. }
    unfold find_all.
    induction Hclean as [|d l Hd _ IH]; simpl; [reflexivity|].
    rewrite Hd. exact IH.
Qed.

(** X12: the accesses of a row that are not guarded end the run when the
    loop reaches the row: a row that an earlier row decomposed raises
    [TypeError], a row without [id] raises [KeyError] although the id is not
    used afterwards, an indentation image without [width] raises [KeyError],
    and a width that is no integer literal raises [ValueError]; in each case
    no document is returned for the thread. *)
Theorem row_access_faults : forall url resp tr pre row post d,
  web url = Some resp -> is_error_status (status_code resp) = false ->
  comment_rows_of (soup_of resp) = pre ++ row :: post ->
  decomposed_after pre [] = Some d ->
  (gone d (fst row) = true ->
     fst (fetch_hn_thread_markdown url tr) = Raise destroyed_tag)
  /\ (gone d (fst row) = false -> get_attr (snd row) "id" = None ->
      fst (fetch_hn_thread_markdown url tr) = Raise (KeyError "id"))
  /\ (forall cid img,
        gone d (fst row) = false -> get_attr (snd row) "id" = Some cid ->
        indent_img (view d (fst row) (snd row)) = Some img ->
        get_attr img "width" = None ->
        fst (fetch_hn_thread_markdown url tr) = Raise (KeyError "width"))
  /\ (forall cid img w,
        gone d (fst row) = false -> get_attr (snd row) "id" = Some cid ->
        indent_img (view d (fst row) (snd row)) = Some img ->
        get_attr img "width" = Some w -> py_int w = None ->
        exists msg, fst (fetch_hn_thread_markdown url tr) = Raise (ValueError msg)).
Proof.
  intros url resp tr pre row post d Hw Hs Hrows Hpre.
  assert (Hfail : forall e, flatten_row_at d row = Raise e ->
            fst (fetch_hn_thread_markdown url tr) = Raise e).
  { intros e He. apply (fetch_thread_raises url resp tr e Hw Hs).
    unfold comments_of. rewrite Hrows.
    apply (flatten_rows_first_fail pre row post [] [] d e Hpre He). }
  split; [|split; [|split]].
  - intros Hgone. apply Hfail. unfold flatten_row_at. rewrite Hgone. reflexivity.
  - intros Hgone Hid. apply Hfail. unfold flatten_row_at. rewrite Hgone.
    unfold flatten_row, getitem. rewrite get_attr_view, Hid. reflexivity.
  - intros cid img Hgone Hid Himg Hwidth. apply Hfail. unfold flatten_row_at.
    rewrite Hgone. unfold flatten_row, indent_px_of, getitem.
    rewrite get_attr_view, Hid, Himg, Hwidth. reflexivity.
  - intros cid img w Hgone Hid Himg Hwidth Hint. eexists. apply Hfail.
    unfold flatten_row_at. rewrite Hgone. unfold flatten_row, indent_px_of, getitem.
    rewrite get_attr_view, Hid, Himg, Hwidth, Hint. reflexivity.
Qed.

Lemma no_space_snoc : forall cur c,
  no_space cur = true -> py_isspace c = false -> no_space (snoc cur c) = true.
Proof.
  induction cur as [|d cur IH]; intros c Hcur Hc; simpl.
  - rewrite Hc. reflexivity.
  - simpl in Hcur. apply andb_prop in Hcur as [Hd Hcur].
    rewrite Hd. simpl. apply IH; assumption.
Qed.

Lemma snoc_nonempty : forall cur c, snoc cur c <> "".
Proof.
  intros [|d cur] c; discriminate.
Qed.

(** The classes of a tag are not empty and hold no white space. *)
Lemma words_from_words : forall s cur,
  no_space cur = true ->
  Forall (fun w => w <> "" /\ no_space w = true) (words_from cur s).
Proof.
  induction s as [|c s IH]; intros cur Hcur; simpl.
  - destruct cur; [constructor|]. constructor; [|constructor].
    split; [discriminate|exact Hcur].
  - destruct (py_isspace c) eqn:Hc.
    + destruct cur as [|d cur]; [apply IH; reflexivity|].
      constructor; [split; [discriminate|exact Hcur]|apply IH; reflexivity].
    + apply IH. apply no_space_snoc; assumption.
Qed.

Lemma no_space_app_space : forall a b, no_space (a +++ " " +++ b) = false.
Proof.
  induction a as [|c a IH]; intros b; [reflexivity|].
  change (negb (py_isspace c) && no_space (a +++ " " +++ b) = false).
  rewrite IH. apply andb_false_r.
Qed.

Lemma first_word : forall w a r b,
  no_space w = true -> no_space a = true ->
  w +++ " " +++ r = a +++ " " +++ b -> w = a /\ r = b.
Proof.
  induction w as [|c w IH]; intros a r b Hw Ha H.
  - destruct a as [|d a]; simpl in H.
    + inversion H. auto.
    + inversion H; subst d. discriminate.
  - destruct a as [|d a]; simpl in H.
    + inversion H; subst c. discriminate.
    + inversion H; subst d. simpl in Hw, Ha.
      apply andb_prop in Hw as [_ Hw]. apply andb_prop in Ha as [_ Ha].
      destruct (IH a r b Hw Ha) as [-> ->]; [assumption|]. auto.
Qed.

Lemma join_words_single : forall cl w,
  Forall (fun w => w <> "" /\ no_space w = true) cl ->
  no_space w = true -> w <> "" ->
  join " " cl = w -> cl = [w].
Proof.
  intros cl w Hcl Hw Hne H.
  destruct cl as [|x [|y cl]].
  - simpl in H. congruence.
  - simpl in H. congruence.
  - change (join " " (x :: y :: cl)) with (x +++ " " +++ join " " (y :: cl)) in H.
    rewrite <- H, no_space_app_space in Hw. discriminate.
Qed.

Lemma join_words_pair : forall cl a b,
  Forall (fun w => w <> "" /\ no_space w = true) cl ->
  no_space a = true -> no_space b = true -> b <> "" ->
  join " " cl = a +++ " " +++ b -> cl = [a; b].
Proof.
  intros cl a b Hcl Ha Hb Hne H.
  destruct cl as [|x [|y cl]].
  - simpl in H. destruct a; discriminate.
  - change (join " " [x]) with x in H. subst x.
    inversion Hcl as [|? ? [_ Hx] _]; subst.
    pose proof (no_space_app_space a b) as Hf.
    change (a +++ " " +++ b) with (a +++ String " " b) in Hf. congruence.
  - change (join " " (x :: y :: cl)) with (x +++ " " +++ join " " (y :: cl)) in H.
    inversion Hcl as [|? ? [_ Hx] Hrest]; subst.
    destruct (first_word x a _ b Hx Ha H) as [-> Hjoin].
    rewrite (join_words_single (y :: cl) b Hrest Hb Hne Hjoin). reflexivity.
Qed.

Lemma class_list_words : forall t cl,
  class_list t = Some cl -> Forall (fun w => w <> "" /\ no_space w = true) cl.
Proof.
  intros t cl H. unfold class_list in H.
  destruct (get_attr t "class") as [v|]; [|discriminate].
  inversion H. apply words_from_words. reflexivity.
Qed.

(** X13: a comment row is a [tr] whose classes are [athing] and [comtr], these
    two in this order and no other: a row with one more class is not read as
    a comment.  A class given as one word is looked up among the classes of
    the tag: the indentation cell is a [td] with [ind] among its classes. *)
Theorem comment_row_classes : forall t,
  (comment_row t = true <->
     name_of t = Some "tr" /\ class_list t = Some ["athing"; "comtr"])
  /\ (indent_cell t = true <->
      name_of t = Some "td" /\ exists cl, class_list t = Some cl /\ In "ind" cl).
Proof.
  intros t. unfold comment_row, indent_cell.
  rewrite !andb_true_iff, !has_name_single. unfold has_class. split.
  - split.
    + intros [Hn Hc]. split; [exact Hn|].
      destruct (class_list t) as [cl|] eqn:Hcl; [|discriminate].
      pose proof (class_list_words t cl Hcl) as Hwords.
      apply orb_prop in Hc as [Hc|Hc].
      * apply existsb_exists in Hc as (c & Hin & Hc). simpl in Hc.
        rewrite orb_false_r in Hc. apply String.eqb_eq in Hc. subst c.
        rewrite Forall_forall in Hwords. destruct (Hwords _ Hin) as [_ Hsp]. discriminate.
      * simpl in Hc. rewrite orb_false_r in Hc. apply String.eqb_eq in Hc.
        f_equal. apply (join_words_pair cl "athing" "comtr" Hwords); auto. discriminate.
    + intros [Hn Hc]. rewrite Hc. split; [exact Hn|reflexivity].
  - split.
    + intros [Hn Hc]. split; [exact Hn|].
      destruct (class_list t) as [cl|] eqn:Hcl; [|discriminate].
      pose proof (class_list_words t cl Hcl) as Hwords.
      exists cl. split; [reflexivity|].
      apply orb_prop in Hc as [Hc|Hc].
      * apply existsb_exists in Hc as (c & Hin & Hc). simpl in Hc.
        rewrite orb_false_r in Hc. apply String.eqb_eq in Hc. subst c. exact Hin.
      * simpl in Hc. rewrite orb_false_r in Hc. apply String.eqb_eq in Hc.
        rewrite (join_words_single cl "ind" Hwords) by (auto; discriminate).
        left. reflexivity.
    + intros [Hn (cl & Hc & Hin)]. rewrite Hc. split; [exact Hn|].
      apply orb_true_intro. left. apply existsb_exists.
      exists "ind". split; [exact Hin|reflexivity].
Qed.

(** ** Rows that are read *)

Lemma digit_is_no_space : forall c, is_digit c = true -> int_isspace c = false.
Proof.
  intros c. destruct c as [[] [] [] [] [] [] [] []]; vm_compute; congruence.
Qed.

Lemma rstrip_by_none : forall p s,
  (forall c, is_digit c = true -> p c = false) ->
  all_digits s = true -> rstrip_by p s = s.
Proof.
  intros p s Hp. induction s as [|c s IH]; intros Hs; [reflexivity|].
  simpl in Hs. apply andb_prop in Hs as [Hc Hs]. simpl. rewrite (IH Hs).
  destruct s; [rewrite (Hp c Hc)|]; reflexivity.
Qed.

Lemma parse_digits_all : forall s acc,
  all_digits s = true -> (0 <= acc)%Z ->
  exists px, parse_digits acc true s = Some px /\ (0 <= px)%Z.
Proof.
  induction s as [|c s IH]; intros acc Hs Hacc; simpl.
  - exists acc. auto.
  - simpl in Hs. apply andb_prop in Hs as [Hc Hs]. unfold digit_val. rewrite Hc.
    apply IH; [exact Hs|].
    change (0 <= 10 * acc + (Z.of_nat (nat_of_ascii c) - 48))%Z.
    unfold is_digit, code_in in Hc. apply andb_prop in Hc as [Hlo _].
    apply Nat.leb_le in Hlo. lia.
Qed.

Lemma scan_digits_all : forall s n,
  all_digits s = true -> scan_digits true n s = Some (n + String.length s)%nat.
Proof.
  induction s as [|c s IH]; intros n Hs; simpl.
  - f_equal. lia.
  - simpl in Hs. apply andb_prop in Hs as [Hc Hs]. rewrite Hc, (IH _ Hs). f_equal. lia.
Qed.

Lemma int_literal_digits : forall w,
  w <> "" -> all_digits w = true -> int_literal w = w /\ negative_literal w = false.
Proof.
  intros w Hne Hw. unfold int_literal, negative_literal.
  rewrite (rstrip_by_none int_isspace w digit_is_no_space Hw).
  destruct w as [|c r]; [contradiction Hne; reflexivity|].
  simpl in Hw. apply andb_prop in Hw as [Hc Hr].
  simpl lstrip_by. rewrite (digit_is_no_space c Hc).
  destruct c as [[] [] [] [] [] [] [] []]; try discriminate Hc; split; reflexivity.
Qed.

(** [int] reads a string of digits, not longer than it converts, as a number
    that is not negative. *)
Lemma py_int_digits : forall w,
  w <> "" -> all_digits w = true -> (String.length w <= MAX_STR_DIGITS)%nat ->
  exists px, py_int w = Some px /\ (0 <= px)%Z.
Proof.
  intros w Hne Hw Hlen. unfold py_int, within_digit_limit, count_digits.
  destruct (int_literal_digits w Hne Hw) as [-> ->].
  destruct w as [|c r]; [contradiction Hne; reflexivity|].
  pose proof Hw as Hcr. simpl in Hw. apply andb_prop in Hw as [Hc Hr].
  cbn [scan_digits parse_digits]. unfold digit_val. rewrite Hc, (scan_digits_all r 1 Hr).
  replace (1 + String.length r <=? MAX_STR_DIGITS)%nat with true
    by (symmetry; apply Nat.leb_le; simpl in Hlen; lia).
  destruct (parse_digits_all r (10 * 0 + (Z.of_nat (nat_of_ascii c) - 48))%Z Hr)
    as (px & -> & Hpx);
    [|exists px; split; [reflexivity|exact Hpx]].
  unfold is_digit, code_in in Hc. apply andb_prop in Hc as [Hlo _].
  apply Nat.leb_le in Hlo. lia.
Qed.

(** X14: a row that no earlier row decomposed is read whenever, as it stands
    at its turn, it has an [id], a comment container and either no
    indentation image or one whose width is written in at most 4300 digits;
    the depth of its comment is then not negative. *)
Theorem well_formed_row_is_read : forall d row cid commtext_td,
  gone d (fst row) = false ->
  get_attr (snd row) "id" = Some cid ->
  find comment_div (view d (fst row) (snd row)) = Some commtext_td ->
  (indent_img (view d (fst row) (snd row)) = None \/
   exists img w,
     indent_img (view d (fst row) (snd row)) = Some img /\
     get_attr img "width" = Some w /\
     w <> "" /\ all_digits w = true /\ (String.length w <= MAX_STR_DIGITS)%nat) ->
  exists c,
    flatten_row_at d row = Ok (c, d ++ decomposed_by d (fst row) (snd row)) /\
    (0 <= depth_of c)%Z.
Proof.
  intros d row cid commtext_td Hgone Hid Hdiv Hind.
  assert (Hpx : exists px, indent_px_of (view d (fst row) (snd row)) = Ok px /\ (0 <= px)%Z).
  { unfold indent_px_of, getitem.
    destruct Hind as [->|(img & w & -> & -> & Hne & Hw & Hlen)].
    - exists 0%Z. split; [reflexivity|lia].
    - destruct (py_int_digits w Hne Hw Hlen) as (px & -> & Hpos). exists px. auto. }
  destruct Hpx as (px & Hpx & Hpos).
  unfold flatten_row_at. rewrite Hgone.
  unfold flatten_row, getitem. rewrite get_attr_view, Hid, Hpx, Hdiv.
  eexists. split; [reflexivity|]. unfold depth_of. simpl.
  apply Z.div_pos; lia.
Qed.

Lemma rstrip_by_last : forall p s ch,
  last_char (rstrip_by p s) = Some ch -> p ch = false.
Proof.
  intros p. induction s as [|c s IH]; intros ch H; [discriminate|].
  simpl in H. destruct (rstrip_by p s) as [|d r] eqn:Hr.
  - destruct (p c) eqn:Hc; [discriminate|]. inversion H; subst. exact Hc.
  - apply IH. exact H.
Qed.

Lemma lstrip_by_first : forall p s ch,
  first_char (lstrip_by p s) = Some ch -> p ch = false.
Proof.
  intros p. induction s as [|c s IH]; intros ch H; [discriminate|].
  simpl in H. destruct (p c) eqn:Hc; [apply IH; exact H|].
  inversion H; subst. exact Hc.
Qed.

Lemma lstrip_by_last : forall p s ch,
  last_char (lstrip_by p s) = Some ch -> last_char s = Some ch.
Proof.
  intros p. induction s as [|c s IH]; intros ch H; [discriminate|].
  simpl in H. destruct (p c); [|exact H].
  apply IH in H. destruct s; [discriminate|exact H].
Qed.

(** X17: the body of a comment the flattener returns neither begins nor ends
    with white space. *)
Theorem body_is_stripped : forall row c,
  flatten_row row = Ok c ->
  (forall ch, first_char (body_of c) = Some ch -> py_isspace ch = false)
  /\ (forall ch, last_char (body_of c) = Some ch -> py_isspace ch = false).
Proof.
  intros row c H. apply flatten_row_inv in H as (px & d & _ & _ & ->).
  unfold body_of, strip. simpl snd. split; intros ch Hch.
  - apply (lstrip_by_first _ _ _ Hch).
  - apply lstrip_by_last in Hch. apply (rstrip_by_last _ _ _ Hch).
Qed.

(** ** Properties of [main] *)

Lemma fetch_thread_any_trace : forall url tr,
  fetch_hn_thread_markdown url tr = (thread_result url, tr ++ [HttpGet url]).
Proof.
  intros url tr. unfold thread_result, fetch_hn_thread_markdown, bind, lift.
  pose proof (fetch_soup_trace url tr) as Ht.
  pose proof (fetch_soup_result url tr) as Hr.
  pose proof (fetch_soup_trace url []) as Ht0.
  destruct (fetch_soup url tr) as [r t], (fetch_soup url []) as [r0 t0].
  simpl in *. subst. destruct r0 as [soup|e|]; try reflexivity.
  destruct (flatten_rows (comment_rows_of soup) [] []) as [cs|e|]; try reflexivity.
  destruct (render_checked _ cs); reflexivity.
Qed.

Lemma save_thread_run : forall tmpdir link tr,
  save_thread tmpdir link tr = (save_result tmpdir link, tr ++ saved_events tmpdir link).
Proof.
  intros tmpdir link tr. unfold save_thread, save_result, saved_events, bind, emit, raise.
  rewrite fetch_thread_any_trace.
  destruct (thread_result link) as [[title md]|e|]; try reflexivity.
  destruct (file_fault _ md); [reflexivity|].
  rewrite <- app_assoc. reflexivity.
Qed.

Lemma saved_events_failed : forall tmpdir link e,
  save_result tmpdir link = Raise e -> saved_events tmpdir link = [HttpGet link].
Proof.
  intros tmpdir link e. unfold save_result, saved_events.
  destruct (thread_result link) as [[title md]|e0|]; try reflexivity.
  destruct (file_fault _ md); [reflexivity|discriminate].
Qed.

Lemma main_run : forall fuel tmpdir tr,
  main fuel tmpdir tr =
  match retrieve_user_favorite_links fuel USER LINK_LIMIT tr with
  | (Ok links, tr1) => for_each links (save_thread tmpdir) tr1
  | (Raise e, tr1) => (Raise e, tr1)
  | (OutOfFuel, tr1) => (OutOfFuel, tr1)
  end.
Proof.
  intros fuel tmpdir tr. unfold main, bind.
  destruct (retrieve_user_favorite_links fuel USER LINK_LIMIT tr) as [[links|e|] tr1];
    reflexivity.
Qed.

(** The loop of [main] over links whose documents are written. *)
Lemma for_each_saved : forall tmpdir done rest tr,
  (forall l, In l done -> save_result tmpdir l = Ok tt) ->
  for_each (done ++ rest) (save_thread tmpdir) tr
    = for_each rest (save_thread tmpdir) (tr ++ flat_map (saved_events tmpdir) done).
Proof.
  intros tmpdir. induction done as [|l done IH]; intros rest tr Hdone.
  - simpl. rewrite app_nil_r. reflexivity.
  - simpl. unfold bind. rewrite save_thread_run.
    rewrite (Hdone l (or_introl eq_refl)).
    rewrite IH by (intros l' Hl'; apply Hdone; right; exact Hl').
    rewrite <- app_assoc. reflexivity.
Qed.

(** X16: [main] fetches the threads of the links in the order of the list and
    writes a document for each; when a thread raises or its file cannot be
    opened, the run ends with that exception: the documents of the threads
    before it stay written and the threads after it are not requested.  When
    the walker raises, no thread is requested at all. *)
Theorem main_writes_until_failure : forall fuel tmpdir tr,
  (forall e tr1,
     retrieve_user_favorite_links fuel USER LINK_LIMIT tr = (Raise e, tr1) ->
     main fuel tmpdir tr = (Raise e, tr1))
  /\ (forall links tr1,
       retrieve_user_favorite_links fuel USER LINK_LIMIT tr = (Ok links, tr1) ->
       (forall l, In l links -> save_result tmpdir l = Ok tt) ->
       main fuel tmpdir tr = (Ok tt, tr1 ++ flat_map (saved_events tmpdir) links))
  /\ (forall done bad rest e tr1,
       retrieve_user_favorite_links fuel USER LINK_LIMIT tr
         = (Ok (done ++ bad :: rest), tr1) ->
       (forall l, In l done -> save_result tmpdir l = Ok tt) ->
       save_result tmpdir bad = Raise e ->
       main fuel tmpdir tr
         = (Raise e, tr1 ++ flat_map (saved_events tmpdir) done ++ [HttpGet bad])).
Proof.
  intros fuel tmpdir tr. rewrite main_run. split; [|split].
  - intros e tr1 ->. reflexivity.
  - intros links tr1 -> Hall.
    rewrite <- (app_nil_r links) at 1. rewrite (for_each_saved tmpdir links [] tr1 Hall).
    reflexivity.
  - intros done bad rest e tr1 -> Hdone Hbad.
    rewrite (for_each_saved tmpdir done (bad :: rest) tr1 Hdone).
    simpl. unfold bind. rewrite save_thread_run, Hbad.
    rewrite (saved_events_failed tmpdir bad e Hbad), <- app_assoc. reflexivity.
Qed.

Lemma for_each_writes : forall tmpdir links tr,
  exists added,
    snd (for_each links (save_thread tmpdir) tr) = tr ++ added /\
    (length (filter is_write added) <= length links)%nat.
Proof.
  intros tmpdir. induction links as [|l links IH]; intros tr.
  - exists []. simpl. rewrite app_nil_r. split; [reflexivity|lia].
  - simpl. unfold bind. rewrite save_thread_run.
    assert (Hone : (length (filter is_write (saved_events tmpdir l)) <= 1)%nat).
    { unfold saved_events. destruct (thread_result l) as [[title md]|e|]; simpl; try lia.
      destruct (file_fault _ md); simpl; lia. }
    destruct (save_result tmpdir l) as [[]|e|].
    + destruct (IH (tr ++ saved_events tmpdir l)) as (added & Htr & Hlen).
      exists (saved_events tmpdir l ++ added).
      split; [rewrite Htr, <- app_assoc; reflexivity|].
      rewrite filter_app, length_app.
      change (length (l :: links)) with (S (length links)). lia.
    + exists (saved_events tmpdir l). split; [reflexivity|].
      change (length (l :: links)) with (S (length links)). lia.
    + exists (saved_events tmpdir l). split; [reflexivity|].
      change (length (l :: links)) with (S (length links)). lia.
Qed.

Lemma filter_is_write_requests : forall urls, filter is_write (map HttpGet urls) = [].
Proof.
  induction urls as [|u urls IH]; simpl; [reflexivity|exact IH].
Qed.

(** X15: a run of [main] writes at most [LINK_LIMIT] = 10 documents, however
    many favourites the listing has and whether or not the run ends well. *)
Theorem main_writes_at_most_ten : forall fuel tmpdir tr,
  exists added,
    snd (main fuel tmpdir tr) = tr ++ added /\
    (length (filter is_write added) <= 10)%nat.
Proof.
  intros fuel tmpdir tr. rewrite main_run, retrieve_run.
  destruct (while_url_requests LINK_LIMIT fuel (Some (favorites_url USER)) [] tr)
    as (urls & _ & Htr).
  destruct (while_url fuel LINK_LIMIT (Some (favorites_url USER)) [] tr)
    as [[links|e|] tr0] eqn:Hloop; simpl in Htr; subst tr0.
  - assert (Hlen : (length links <= 10)%nat).
    { destruct (while_url_length LINK_LIMIT ltac:(unfold LINK_LIMIT; lia) _ _ _ _ _ _ Hloop)
        as [Heq|[Hlt _]]; unfold LINK_LIMIT in *; lia. }
    destruct (for_each_writes tmpdir links
                ((tr ++ map HttpGet urls) ++ [TempFile (tmpfile_content links)]))
      as (added & Hadd & Hw).
    exists (map HttpGet urls ++ [TempFile (tmpfile_content links)] ++ added).
    split.
    + unfold tmpfile_content in *. rewrite Hadd, <- !app_assoc. reflexivity.
    + rewrite !filter_app, filter_is_write_requests. simpl. lia.
  - exists (map HttpGet urls). split; [reflexivity|].
    rewrite filter_is_write_requests. simpl. lia.
  - exists (map HttpGet urls). split; [reflexivity|].
    rewrite filter_is_write_requests. simpl. lia.
Qed.

End Program.

(** ** The properties on the sample pages *)

(** The two sample orders are orders of a set. *)
Lemma insertion_order_perm : forall l,
  Permutation (Samples.insertion_order l) (nodup string_dec l).
Proof.
  intros l. unfold Samples.insertion_order. apply NoDup_Permutation.
  - apply NoDup_rev, NoDup_nodup.
  - apply NoDup_nodup.
  - intros x. rewrite <- in_rev, !nodup_In, <- in_rev. reflexivity.
Qed.

Lemma reverse_order_perm : forall l,
  Permutation (Samples.reverse_order l) (nodup string_dec l).
Proof.
  intros l. unfold Samples.reverse_order. apply NoDup_Permutation.
  - apply NoDup_nodup.
  - apply NoDup_nodup.
  - intros x. rewrite !nodup_In, <- in_rev. reflexivity.
Qed.

(** With limit 3 the two sample pages, which hold four links, give three. *)
Lemma favorite_links_length_witness :
  (0 <= 3)%Z /\
  (Z.of_nat (length [Samples.item "1"; Samples.item "2"; Samples.item "1"]) <= 3)%Z /\
  exists r tr',
    retrieve_user_favorite_links "me" Samples.web Samples.insertion_order 5 "pg" 3 []
      = (Ok r, tr') /\
    Z.of_nat (length r) = 3%Z.
Proof.
  pose proof (favorite_links_length "me" Samples.web Samples.insertion_order "pg" 3
                ltac:(lia)) as [Hle Hex].
  split; [lia|]. split.
  - apply (Hle 5%nat [] _ (snd (retrieve_user_favorite_links "me" Samples.web
                                  Samples.insertion_order 5 "pg" 3 []))).
    vm_compute. reflexivity.
  - apply (Hex 2%nat 5%nat []); [lia| |]; vm_compute; discriminate.
Defined.

(** C2 fails on the two sample pages: item 1 stands on both and is returned
    twice, although the log lines of the walker call the links unique; and a
    set that is iterated against the order of insertion returns item 2 before
    item 1, which the first page lists the other way round. *)
Lemma duplicate_across_pages :
  fst (retrieve_user_favorite_links "me" Samples.web Samples.insertion_order 5 "pg" 10 [])
    = Ok [Samples.item "1"; Samples.item "2"; Samples.item "1"; Samples.item "3"]
  /\ ~ NoDup [Samples.item "1"; Samples.item "2"; Samples.item "1"; Samples.item "3"]
  /\ map link_of (find_all item_anchor Samples.page1)
       = [Samples.item "1"; Samples.item "2"; Samples.item "1"]
  /\ fst (retrieve_user_favorite_links "me" Samples.web Samples.reverse_order 5 "pg" 2 [])
       = Ok [Samples.item "2"; Samples.item "1"].
Proof.
  split; [vm_compute; reflexivity|]. split.
  - intros H. inversion H as [|? ? Hin _]; subst. apply Hin. simpl. auto.
  - split; vm_compute; reflexivity.
Qed.

(** In the document of the scenario the line after an author line is empty:
    the body does not follow it immediately. *)
Lemma author_line_then_blank :
  adjacentb "- **alice**:" "  hi" (lines_of (render "Test Thread" Samples.scenario)) = false
  /\ adjacentb "  - **bob**:" "    reply" (lines_of (render "Test Thread" Samples.scenario))
     = false
  /\ adjacentb "- **alice**:" "" (lines_of (render "Test Thread" Samples.scenario)) = true
  /\ adjacentb "" "  hi" (lines_of (render "Test Thread" Samples.scenario)) = true.
Proof.
  repeat split; vm_compute; reflexivity.
Qed.

(** The page of an unknown user raises; the first sample page does not. *)
Lemma invalid_user_raises_witness :
  fst (get_item_links_from_page "me" Samples.web Samples.insertion_order
         (favorites_url "nobody") [])
    = Raise (ValueError "Specify valid user instead of 'me'")
  /\ forall msg,
       fst (get_item_links_from_page "me" Samples.web Samples.insertion_order
              (favorites_url "pg") [])
         <> Raise (ValueError msg).
Proof.
  split.
  - apply (invalid_user_raises "me" Samples.web Samples.insertion_order
             (favorites_url "nobody") (mkResponse 200 Samples.no_user_page) []);
      reflexivity.
  - apply (invalid_user_raises "me" Samples.web Samples.insertion_order
             (favorites_url "pg") (mkResponse 200 Samples.page1) []);
      [reflexivity|reflexivity|vm_compute; discriminate].
Defined.

(** The depths of the sample rows (widths 0 and 40, and a row without
    indentation cell), which are read as parsed; and of a row that lost its
    indentation cell to the row that holds it. *)
Lemma depth_is_width_div_40_witness :
  (Forall2 (fun row c =>
              (find indent_cell row = None -> depth_of c = 0%Z) /\
              match indent_img row with
              | Some img =>
                  exists w px, get_attr img "width" = Some w /\ py_int w = Some px /\
                               depth_of c = (px / 40)%Z
              | None => depth_of c = 0%Z
              end)
           (rows_as_read (comment_rows_of Samples.thread_page) []) Samples.thread_comments
   /\ (rows_apart (comment_rows_of Samples.thread_page) = true ->
       rows_as_read (comment_rows_of Samples.thread_page) []
         = map snd (comment_rows_of Samples.thread_page)))
  /\ map snd (comment_rows_of Samples.thread_page) = Samples.thread_rows
  /\ comments_of (Nested.thread Nested.holding_row)
     = Ok [(2%Z, "bob", "outer" +++ nl +++ "inner"); (0%Z, "[deleted]", "inner")].
Proof.
  split; [|split; vm_compute; reflexivity].
  apply (depth_is_width_div_40 Samples.thread_page). vm_compute. reflexivity.
Defined.

(** The links of the first sample page. *)
Lemma item_links_exact_witness :
  NoDup [Samples.item "1"; Samples.item "2"] /\
  forall u, In u [Samples.item "1"; Samples.item "2"] <->
    exists a slash ds e,
      In a (descendants Samples.page1) /\ name_of a = Some "a" /\
      get_attr a "href" = Some (slash +++ "item?id=" +++ ds +++ e) /\
      (slash = "" \/ slash = "/") /\ ds <> "" /\ all_digits ds = true /\
      (e = "" \/ e = nl) /\
      u = BASE_URL +++ "/item?id=" +++ ds +++ e.
Proof.
  apply (item_links_exact "me" Samples.insertion_order insertion_order_perm
           Samples.page1 _ (Some (BASE_URL +++ "/favorites?id=pg&p=2"))).
  vm_compute. reflexivity.
Defined.

(** An [href] with a path component or a second slash before [item?id=] is
    no item link, one with a final line feed is: of the three anchors of
    [Samples.odd_page] only the last gives a link. *)
Lemma stray_prefix_is_no_link :
  item_pattern "x/item?id=1" = false
  /\ item_pattern "//item?id=2" = false
  /\ item_pattern ("item?id=3" +++ nl) = true
  /\ extract_links "me" Samples.insertion_order Samples.odd_page
       = Ok ([Samples.item ("3" +++ nl)], None).
Proof.
  repeat split; vm_compute; reflexivity.
Qed.

(** The sample thread fetched twice in a row. *)
Lemma rendering_is_deterministic_witness :
  exists doc1 doc2 tr1' tr2',
    fetch_hn_thread_markdown Samples.web Machine.maxsize Machine.memory
      Samples.thread_url []
      = (Ok ("Test Thread", doc1), tr1') /\
    fetch_hn_thread_markdown Samples.web Machine.maxsize Machine.memory
      Samples.thread_url [HttpGet Samples.thread_url]
      = (Ok ("Test Thread", doc2), tr2') /\
    doc1 = render "Test Thread" Samples.thread_comments /\
    doc2 = render "Test Thread" Samples.thread_comments /\
    list_ascii_of_string doc1 = list_ascii_of_string doc2.
Proof.
  exists (render "Test Thread" Samples.thread_comments),
         (render "Test Thread" Samples.thread_comments),
         [HttpGet Samples.thread_url],
         [HttpGet Samples.thread_url; HttpGet Samples.thread_url].
  split; [vm_compute; reflexivity|]. split; [vm_compute; reflexivity|].
  apply (rendering_is_deterministic Samples.web Machine.maxsize Machine.memory
           Samples.thread_url Samples.thread_url
           (mkResponse 200 Samples.thread_page) (mkResponse 200 Samples.thread_page)
           [] [HttpGet Samples.thread_url] "Test Thread" Samples.thread_comments
           _ _ [HttpGet Samples.thread_url]
           [HttpGet Samples.thread_url; HttpGet Samples.thread_url]);
    vm_compute; reflexivity.
Defined.

(** The authors of the sample rows, the last without an author link. *)
Lemma author_or_deleted_witness :
  Forall2 (fun row c =>
             match find hnuser_anchor row with
             | Some a => author_of c = text a
             | None => author_of c = "[deleted]"
             end)
          (rows_as_read (comment_rows_of Samples.thread_page) []) Samples.thread_comments
  /\ (rows_apart (comment_rows_of Samples.thread_page) = true ->
      rows_as_read (comment_rows_of Samples.thread_page) []
        = map snd (comment_rows_of Samples.thread_page)).
Proof.
  apply (author_or_deleted Samples.thread_page). vm_compute. reflexivity.
Defined.

(** The sample thread whose second row has no comment container. *)
Lemma missing_container_is_fatal_witness :
  (exists e,
     fst (fetch_hn_thread_markdown Samples.web Machine.maxsize Machine.memory
            Samples.broken_url []) = Raise e)
  /\ fst (fetch_hn_thread_markdown Samples.web Machine.maxsize Machine.memory
            Samples.broken_url []) = Raise no_container.
Proof.
  destruct (missing_container_is_fatal Samples.web Machine.maxsize Machine.memory
              Samples.broken_url (mkResponse 200 Samples.broken_thread_page) []
              [([1; 0], Samples.row "1" "0" "alice" [NavigableString "hi"])]
              ([1; 1], Samples.bare_row) []
              eq_refl eq_refl eq_refl) as (Hfail & Hfault).
  split; [apply Hfail; reflexivity|].
  apply (Hfault [[1; 0; 1; 1; 1]]); try reflexivity.
  - exists "4". reflexivity.
  - exists 80%Z. reflexivity.
Defined.

(** Limit 0 on a listing that loads, on an unknown user and on a server that
    does not answer: one request each time. *)
Lemma limit_zero_fetches_first_page_witness :
  retrieve_user_favorite_links "me" Samples.web Samples.insertion_order 1 "pg" 0 []
    = (Ok [], [HttpGet (favorites_url "pg"); TempFile ""])
  /\ retrieve_user_favorite_links "me" Samples.web Samples.insertion_order 1 "nobody" 0 []
     = (Raise (ValueError "Specify valid user instead of 'me'"),
        [HttpGet (favorites_url "nobody")])
  /\ retrieve_user_favorite_links "me" Samples.web Samples.insertion_order 1 "down" 0 []
     = (Raise ConnectionError, [HttpGet (favorites_url "down")]).
Proof.
  split; [|split].
  - apply (proj2 (proj2 (proj2 (limit_zero_fetches_first_page "me" Samples.web
                                  Samples.insertion_order "pg" 0 [])))
             [Samples.item "1"; Samples.item "2"]
             (Some (BASE_URL +++ "/favorites?id=pg&p=2"))).
    vm_compute. reflexivity.
  - apply (proj1 (proj2 (proj2 (limit_zero_fetches_first_page "me" Samples.web
                                  Samples.insertion_order "nobody" 0 [])))
             0%Z (mkResponse 200 Samples.no_user_page)); reflexivity.
  - apply (proj1 (proj2 (limit_zero_fetches_first_page "me" Samples.web
                           Samples.insertion_order "down" 0 [])) 0%Z ConnectionError).
    vm_compute. reflexivity.
Defined.

(** ** The further properties on the sample pages *)

(** A listing of one page with two links and no "More" anchor. *)
Lemma single_page_listing_witness :
  retrieve_user_favorite_links "me" Corner.web Samples.insertion_order 1 "solo" 10 []
    = (Ok (slice_to [Samples.item "11"; Samples.item "12"] 10),
       [] ++ [HttpGet (favorites_url "solo");
              TempFile (tmpfile_content
                          (slice_to [Samples.item "11"; Samples.item "12"] 10))])
  /\ slice_to [Samples.item "11"; Samples.item "12"] 10
     = [Samples.item "11"; Samples.item "12"].
Proof.
  destruct (single_page_listing "me" Corner.web Samples.insertion_order "solo" 0 10 []
              [Samples.item "11"; Samples.item "12"]) as [Hrun Hall].
  - vm_compute. reflexivity.
  - split; [exact Hrun|]. apply Hall. simpl. lia.
Defined.

(** Limit -1 on the listing of two links: the first is returned. *)
Lemma negative_limit_drops_last_witness :
  fst (retrieve_user_favorite_links "me" Corner.web Samples.insertion_order 1 "solo" (-1) [])
    = Ok [Samples.item "11"].
Proof.
  apply (proj1 (negative_limit_drops_last "me" Corner.web Samples.insertion_order
                  "solo" 0 (-1) [] [Samples.item "11"; Samples.item "12"] None
                  ltac:(lia) ltac:(vm_compute; reflexivity))).
Defined.

(** A listing whose "More" anchor has no [href], with limit 1, which its one
    link would reach. *)
Lemma more_without_href_raises_witness :
  retrieve_user_favorite_links "me" Corner.web Samples.insertion_order 1 "nohref" 1 []
    = (Raise (KeyError "href"), [] ++ [HttpGet (favorites_url "nohref")]).
Proof.
  apply (more_without_href_raises "me" Corner.web Samples.insertion_order "nohref" 0 1 []
           (mkResponse 200 Corner.nohref_page) (Tag "a" [] [NavigableString "More"]));
    reflexivity.
Defined.

(** A listing whose second page answers with status 500. *)
Lemma later_page_failure_propagates_witness :
  exists urls, length urls = 2%nat /\
    retrieve_user_favorite_links "me" Corner.web Samples.insertion_order 5 "torn" 10 []
      = (Raise (HTTPError 500), [] ++ map HttpGet urls).
Proof.
  apply (later_page_failure_propagates "me" Corner.web Samples.insertion_order
           1 5 "torn" 10 [] (BASE_URL +++ "/favorites?id=torn&p=2") (HTTPError 500));
    first [lia | vm_compute; reflexivity].
Defined.

(** A listing whose one page names itself as the next page: three units of
    fuel, three requests, no result. *)
Lemma self_linked_page_never_returns_witness :
  retrieve_user_favorite_links "me" Corner.web Samples.insertion_order 3 "loop" 10 []
    = (OutOfFuel, [] ++ repeat (HttpGet (favorites_url "loop")) 3).
Proof.
  apply (self_linked_page_never_returns "me" Corner.web Samples.insertion_order "loop" 10);
    [lia|vm_compute; reflexivity].
Defined.


(** Threads whose only row lacks its [id], the width of its image, or has a
    width that is no integer; and a thread whose second row stands in the
    reply control of the first. *)
Lemma row_access_faults_witness :
  fst (fetch_hn_thread_markdown Corner.web Machine.maxsize Machine.memory
         (Samples.item "12") []) = Raise (KeyError "id")
  /\ fst (fetch_hn_thread_markdown Corner.web Machine.maxsize Machine.memory
            (Samples.item "13") []) = Raise (KeyError "width")
  /\ (exists msg,
        fst (fetch_hn_thread_markdown Corner.web Machine.maxsize Machine.memory
               (Samples.item "14") []) = Raise (ValueError msg))
  /\ fst (fetch_hn_thread_markdown Corner.web Machine.maxsize Machine.memory
            (Samples.item "15") []) = Raise destroyed_tag.
Proof.
  split; [|split; [|split]].
  - apply (proj1 (proj2 (row_access_faults Corner.web Machine.maxsize Machine.memory
                    (Samples.item "12")
                    (mkResponse 200 (Corner.one_row_thread Corner.no_id_row)) []
                    [] ([1; 0], Corner.no_id_row) [] [] eq_refl eq_refl eq_refl eq_refl)));
      reflexivity.
  - apply (proj1 (proj2 (proj2 (row_access_faults Corner.web Machine.maxsize
                    Machine.memory (Samples.item "13")
                    (mkResponse 200 (Corner.one_row_thread Corner.no_width_row)) []
                    [] ([1; 0], Corner.no_width_row) [] [] eq_refl eq_refl eq_refl
                    eq_refl)))
             "5" (Tag "img" [("src", "s.gif")] [])); reflexivity.
  - apply (proj2 (proj2 (proj2 (row_access_faults Corner.web Machine.maxsize
                    Machine.memory (Samples.item "14")
                    (mkResponse 200 (Corner.one_row_thread Corner.bad_width_row)) []
                    [] ([1; 0], Corner.bad_width_row) [] [] eq_refl eq_refl eq_refl
                    eq_refl)))
             "6" (Tag "img" [("width", "40px")] []) "40px"); reflexivity.
  - apply (proj1 (row_access_faults Corner.web Machine.maxsize Machine.memory
                    (Samples.item "15")
                    (mkResponse 200 (Nested.thread Nested.outer_row)) []
                    [([1; 0], Nested.outer_row)] ([1; 0; 0; 1; 0], Nested.inner_row) []
                    [[1; 0; 0; 1]] eq_refl eq_refl eq_refl eq_refl)).
    reflexivity.
Defined.

(** The user "solo" has two favourites: the thread of the first is written,
    the thread of the second has a row without [id]; and a thread whose title
    holds a slash names a file in a directory that does not exist. *)
Lemma main_writes_until_failure_witness :
  main "solo" Corner.web Samples.insertion_order Machine.maxsize Machine.memory
    Machine.open_flat Machine.write_ok 1 "/tmp/hn" []
    = (Raise (KeyError "id"),
       [HttpGet (favorites_url "solo");
        TempFile (tmpfile_content [Samples.item "11"; Samples.item "12"])]
         ++ flat_map (saved_events Corner.web Machine.maxsize Machine.memory
                        Machine.open_flat Machine.write_ok "/tmp/hn") [Samples.item "11"]
         ++ [HttpGet (Samples.item "12")])
  /\ saved_events Corner.web Machine.maxsize Machine.memory Machine.open_flat
       Machine.write_ok "/tmp/hn" (Samples.item "11")
     = [HttpGet (Samples.item "11");
        WriteFile "/tmp/hn/hn_11.md" (render "hn_11" [(0%Z, "alice", "hi")])]
  /\ save_thread Corner.web Machine.maxsize Machine.memory Machine.open_flat
       Machine.write_ok "/tmp/hn" (Samples.item "16") []
     = (Raise (OSError 2), [HttpGet (Samples.item "16")]).
Proof.
  split; [|split; vm_compute; reflexivity].
  apply (proj2 (proj2 (main_writes_until_failure "solo" Corner.web Samples.insertion_order
                         Machine.maxsize Machine.memory Machine.open_flat Machine.write_ok
                         1 "/tmp/hn" []))
           [Samples.item "11"] (Samples.item "12") [] (KeyError "id")).
  - vm_compute. reflexivity.
  - intros l [<-|[]]. vm_compute. reflexivity.
  - vm_compute. reflexivity.
Defined.

(** The first sample row, with nothing decomposed: width "0", author alice. *)
Lemma well_formed_row_is_read_witness :
  exists c,
    flatten_row_at [] ([1; 0], Samples.row "1" "0" "alice" [NavigableString "hi"])
      = Ok (c, [] ++ decomposed_by [] [1; 0]
                       (Samples.row "1" "0" "alice" [NavigableString "hi"])) /\
    (0 <= depth_of c)%Z.
Proof.
  apply (well_formed_row_is_read []
           ([1; 0], Samples.row "1" "0" "alice" [NavigableString "hi"]) "1"
           (Tag "div" [("class", "comment")]
              [NavigableString "hi";
               Tag "div" [("class", "reply")] [Samples.anchor "reply?id=1" "reply"]])
           eq_refl eq_refl eq_refl).
  right. exists (Tag "img" [("src", "s.gif"); ("width", "0")] []), "0".
  split; [reflexivity|]. split; [reflexivity|]. split; [discriminate|].
  split; [reflexivity|]. unfold MAX_STR_DIGITS. simpl. lia.
Defined.

(** The first sample row: its reply control is decomposed and only "hi" is
    kept of its container. *)
Lemma no_reply_left_in_container_witness :
  exists commtext_td,
    find comment_div (Samples.row "1" "0" "alice" [NavigableString "hi"])
      = Some commtext_td /\
    body_of (0%Z, "alice", "hi") = strip (join nl (kept_strings commtext_td)) /\
    find_all reply_or_unvoted (decompose_all reply_or_unvoted commtext_td) = [].
Proof.
  apply (no_reply_left_in_container
           (Samples.row "1" "0" "alice" [NavigableString "hi"]) (0%Z, "alice", "hi")).
  vm_compute. reflexivity.
Defined.

(** The body of the first sample row. *)
Lemma body_is_stripped_witness :
  (forall ch, first_char "hi" = Some ch -> py_isspace ch = false)
  /\ (forall ch, last_char "hi" = Some ch -> py_isspace ch = false).
Proof.
  apply (body_is_stripped (Samples.row "1" "0" "alice" [NavigableString "hi"])
           (0%Z, "alice", "hi")).
  vm_compute. reflexivity.
Defined.
